(** * Verification of [verifyAuthenticationResponse]

    A shallow embedding of
    [packages/server/src/authentication/verifyAuthenticationResponse.ts]
    (SimpleWebAuthn server, 13.1.2) and proofs of the properties its
    specification states about it.

    The function is an [async] JavaScript function that validates a
    browser-submitted assertion.  It is embedded as a computation in a small
    state-and-exception monad: the state holds the caller-owned credential
    object, the caller's own world (which only the caller's challenge verifier
    can touch) and the trace of the external calls the function makes; an
    outcome is a returned record, a thrown error or a promise that never
    settles. *)

From Stdlib Require Import String Ascii List ZArith Bool Lia.
From Stdlib Require Import Strings.Byte.
Import ListNotations.

Set Warnings "-register-all".
Local Open Scope string_scope.
Local Open Scope Z_scope.
Local Open Scope list_scope.

(** ** JavaScript values

    The response arrives as deserialised JSON, so the code inspects it with
    [!x], [typeof x], [===] and property access.  Numbers are restricted to
    integers; an object carries the address that [===] compares. *)

Inductive JSValue : Type :=
| JSUndefined
| JSNull
| JSBoolean (b : bool)
| JSNumber (n : Z)
| JSString (s : string)
| JSObject (ref : nat) (props : list (string * JSValue)).

(** [!!v]. *)
Definition truthy (v : JSValue) : bool :=
  match v with
  | JSUndefined | JSNull => false
  | JSBoolean b => b
  | JSNumber n => negb (n =? 0)
  | JSString s => negb (s =? EmptyString)%string
  | JSObject _ _ => true
  end.

(** [typeof v]. *)
Definition typeof (v : JSValue) : string :=
  match v with
  | JSUndefined => "undefined"
  | JSNull => "object"
  | JSBoolean _ => "boolean"
  | JSNumber _ => "number"
  | JSString _ => "string"
  | JSObject _ _ => "object"
  end.

(** [a === b]: same type and same primitive value, or the same object. *)
Definition strict_eq (a b : JSValue) : bool :=
  match a, b with
  | JSUndefined, JSUndefined => true
  | JSNull, JSNull => true
  | JSBoolean x, JSBoolean y => Bool.eqb x y
  | JSNumber x, JSNumber y => x =? y
  | JSString x, JSString y => (x =? y)%string
  | JSObject r _, JSObject r' _ => Nat.eqb r r'
  | _, _ => false
  end.

Fixpoint lookup_prop (props : list (string * JSValue)) (key : string) : JSValue :=
  match props with
  | [] => JSUndefined
  | (k, v) :: rest => if (k =? key)%string then v else lookup_prop rest key
  end.

(** [v.key] and [v?.key] for the keys the code reads ([id], [rawId], [type],
    [response], [clientDataJSON], [authenticatorData], [signature],
    [userHandle], [status]): none of them is a property of a primitive's
    wrapper, so both give [undefined] on a primitive.  On [null] and
    [undefined] only the optional form is defined; the code applies the plain
    form to such a value at the destructuring of line 61 alone, which is
    modelled separately. *)
Definition get_prop (v : JSValue) (key : string) : JSValue :=
  match v with
  | JSObject _ props => lookup_prop props key
  | _ => JSUndefined
  end.

Definition is_nullish (v : JSValue) : bool :=
  match v with
  | JSUndefined | JSNull => true
  | _ => false
  end.

(** [list.indexOf(v)], with the strict equality it uses. *)
Fixpoint indexOf_from (i : Z) (l : list JSValue) (v : JSValue) : Z :=
  match l with
  | [] => -1
  | x :: rest => if strict_eq x v then i else indexOf_from (i + 1) rest v
  end.

Definition indexOf (l : list JSValue) (v : JSValue) : Z := indexOf_from 0 l v.

(** [list.includes(s)] on an array of strings. *)
Definition includes (l : list string) (s : string) : bool :=
  existsb (fun x => (x =? s)%string) l.

(** ** Data model *)

Definition bytes := list byte.

(** [string | string[]] parameters ([expectedOrigin], [expectedRPID],
    [expectedType]). *)
Inductive OneOrMany : Type :=
| One (s : string)
| Many (l : list string).

Inductive UserVerificationRequirement : Type :=
| UVRequired | UVPreferred | UVDiscouraged.

Record AdvancedFIDOConfig : Type := {
  userVerification : option UserVerificationRequirement
}.

Inductive CredentialDeviceType : Type := SingleDevice | MultiDevice.

(** The caller-owned [WebAuthnCredential]. *)
Record WebAuthnCredential : Type := {
  cred_id : string;
  cred_publicKey : bytes;
  cred_counter : Z;
  cred_transports : option (list string)
}.

(** What [decodeClientDataJSON] returns.  [tokenBinding] is kept as a raw
    value because the code checks its shape itself. *)
Record ClientDataJSON : Type := {
  cd_type : string;
  cd_challenge : string;
  cd_origin : string;
  cd_tokenBinding : JSValue
}.

Record AuthenticatorFlags : Type := {
  up : bool; uv : bool; be : bool; bs : bool; at_ : bool; ed : bool;
  flagsInt : Z
}.

(** The fields of [parseAuthenticatorData]'s result that the code reads. *)
Record ParsedAuthenticatorData : Type := {
  rpIdHash : bytes;
  flags : AuthenticatorFlags;
  counter : Z;
  extensionsData : JSValue
}.

Record AuthenticationInfo : Type := {
  credentialID : string;
  newCounter : Z;
  userVerified : bool;
  credentialDeviceType : CredentialDeviceType;
  credentialBackedUp : bool;
  origin : string;
  rpID : string;
  authenticatorExtensionResults : JSValue
}.

Record VerifiedAuthenticationResponse : Type := {
  verified : bool;
  authenticationInfo : AuthenticationInfo
}.

(** ** Helpers of the repository that the function calls

    [decodeClientDataJSON], [isoBase64URL], [parseAuthenticatorData],
    [matchExpectedRPID], [toHash] (SHA-256 unless told otherwise),
    [parseBackupFlags] and [verifySignature] live in [../helpers]; the
    function is verified for every implementation of them.  A helper either
    returns or throws ([inl], with the message of what it threw); the
    asynchronous ones settle. *)

Definition Exn := string.

Class Helpers : Type := {
  decodeClientDataJSON : string -> Exn + ClientDataJSON;
  isBase64URL : JSValue -> Exn + bool;
  toBuffer : JSValue -> Exn + bytes;
  parseAuthenticatorData : bytes -> Exn + ParsedAuthenticatorData;
  matchExpectedRPID : bytes -> list string -> Exn + string;
  toHash : bytes -> Exn + bytes;
  parseBackupFlags : AuthenticatorFlags -> Exn + (CredentialDeviceType * bool);
  verifySignature : bytes -> bytes -> bytes -> Exn + bool
}.

(** Modelled from the spec: [isoUint8Array.concat] is not among the sources;
    the signed data is the byte concatenation of its arguments, in order. *)
Definition isoUint8Array_concat (arrays : list bytes) : bytes := List.concat arrays.

(** The places where the function calls a helper that can throw. *)
Inductive CallSite : Type :=
| AtDecodeClientDataJSON        (* line 88 *)
| AtIsBase64URLAuthenticatorData (* line 139 *)
| AtIsBase64URLSignature        (* line 145 *)
| AtToBufferAuthenticatorData   (* line 168 *)
| AtParseAuthenticatorData      (* line 171 *)
| AtMatchExpectedRPID           (* line 182 *)
| AtToBufferClientDataJSON      (* line 221 *)
| AtToHash                      (* line 220 *)
| AtToBufferSignature           (* line 225 *)
| AtParseBackupFlags            (* line 240 *)
| AtVerifySignature.            (* line 243 *)

(** Every way the call can fail: one constructor per [throw] of the source,
    carrying the values its message interpolates. *)
Inductive VerifyError : Type :=
| DestructureTypeError
    (* line 61, destructuring [null] or [undefined] *)
| MissingCredentialID
    (* 'Missing credential ID' *)
| CredentialIDNotBase64URL
    (* 'Credential ID was not base64url-encoded' *)
| UnexpectedCredentialType (credentialType : JSValue)
    (* 'Unexpected credential type ..., expected "public-key"' *)
| CredentialMissingResponse
    (* 'Credential missing response' *)
| ClientDataJSONNotString
    (* 'Credential response clientDataJSON was not a string' *)
| UnexpectedResponseType (type : string) (expected : option OneOrMany)
    (* 'Unexpected authentication response type ...' *)
| VerifierReturnedFalse (challenge : string)
    (* 'Custom challenge verifier returned false ...' *)
| UnexpectedChallenge (challenge expected : string)
    (* 'Unexpected authentication response challenge ..., expected ...' *)
| UnexpectedOrigin (origin : string) (expected : OneOrMany)
    (* 'Unexpected authentication response origin ..., expected ...' *)
| AuthenticatorDataNotBase64URL
    (* 'Credential response authenticatorData was not a base64url string' *)
| SignatureNotBase64URL
    (* 'Credential response signature was not a base64url string' *)
| UserHandleNotString
    (* 'Credential response userHandle was not a string' *)
| TokenBindingNotObject
    (* 'ClientDataJSON tokenBinding was not an object' *)
| UnexpectedTokenBindingStatus (status : JSValue)
    (* 'Unexpected tokenBinding status ...' *)
| UserNotPresent
    (* 'User not present during authentication' *)
| UserVerificationRequired
    (* 'User verification required, but user could not be verified' *)
| CounterRegression (counter stored : Z)
    (* 'Response counter value ... was lower than expected ...' *)
| VerifierRejected (reason : JSValue)
    (* the caller's challenge verifier threw or rejected *)
| HelperThrew (site : CallSite) (e : Exn).
    (* a helper threw; the exception propagates *)

(** ** The caller's challenge verifier

    [(challenge: string) => boolean | Promise<boolean>]: caller code, which
    may read and change the caller's own state [W], and whose promise
    resolves, rejects or never settles. *)

Inductive VerifierOutcome : Type :=
| Resolves (b : bool)
| Rejects (reason : JSValue)
| NeverSettles.

Inductive ExpectedChallenge (W : Type) : Type :=
| ChallengeLiteral (expected : string)
| ChallengeVerifier (f : string -> W -> VerifierOutcome * W).
Arguments ChallengeLiteral {W} expected.
Arguments ChallengeVerifier {W} f.

(** The external calls a run makes, in order. *)
Inductive Event : Type :=
| EvChallengeVerifier (challenge : string)
| EvVerifySignature (signature data credentialPublicKey : bytes).

(** The options object, without [credential]: that one is a reference to the
    caller's object, which lives in the store. *)
Record Options (W : Type) : Type := {
  response : JSValue;
  expectedChallenge : ExpectedChallenge W;
  expectedOrigin : OneOrMany;
  expectedRPID : OneOrMany;
  expectedType : option OneOrMany;
  requireUserVerification : option bool;
  advancedFIDOConfig : option AdvancedFIDOConfig
}.
Arguments response {W} _.
Arguments expectedChallenge {W} _.
Arguments expectedOrigin {W} _.
Arguments expectedRPID {W} _.
Arguments expectedType {W} _.
Arguments requireUserVerification {W} _.
Arguments advancedFIDOConfig {W} _.

(** ** The monad *)

Record Store (W : Type) : Type := {
  credential : WebAuthnCredential;
  world : W;
  trace : list Event
}.
Arguments credential {W} _.
Arguments world {W} _.
Arguments trace {W} _.

Inductive Outcome (A : Type) : Type :=
| Returned (a : A)
| Threw (e : VerifyError)
| Pending.
Arguments Returned {A} a.
Arguments Threw {A} e.
Arguments Pending {A}.

Definition M (W A : Type) : Type := Store W -> Outcome A * Store W.

Definition ret {W A} (a : A) : M W A := fun s => (Returned a, s).

Definition bind {W A B} (m : M W A) (k : A -> M W B) : M W B :=
  fun s =>
    match m s with
    | (Returned a, s') => k a s'
    | (Threw e, s') => (Threw e, s')
    | (Pending, s') => (Pending, s')
    end.

Definition throw {W A} (e : VerifyError) : M W A := fun s => (Threw e, s).

Declare Scope js_scope.
Delimit Scope js_scope with js.
Notation "x <- m ;; k" := (bind m (fun x => k))
  (at level 61, m at next level, right associativity) : js_scope.
Notation "m ;; k" := (bind m (fun _ => k))
  (at level 61, right associativity) : js_scope.
Local Open Scope js_scope.

(** [if (c) { throw e }]. *)
Definition throw_if {W} (c : bool) (e : VerifyError) : M W unit :=
  if c then throw e else ret tt.

(** A call of a helper: its value, or its exception propagated. *)
Definition call {W A} (site : CallSite) (r : Exn + A) : M W A :=
  match r with
  | inr a => ret a
  | inl e => throw (HelperThrew site e)
  end.

(** Reading a field of the caller's credential object. *)
Definition read_credential {W A} (field : WebAuthnCredential -> A) : M W A :=
  fun s => (Returned (field (credential s)), s).

Definition emit {W} (ev : Event) : M W unit :=
  fun s => (Returned tt,
            {| credential := credential s; world := world s;
               trace := trace s ++ [ev] |}).

(** [await expectedChallenge(challenge)]. *)
Definition await_verifier {W} (f : string -> W -> VerifierOutcome * W)
    (challenge : string) : M W bool :=
  fun s =>
    let r := f challenge (world s) in
    let s' := {| credential := credential s; world := snd r;
                 trace := trace s ++ [EvChallengeVerifier challenge] |} in
    match fst r with
    | Resolves b => (Returned b, s')
    | Rejects reason => (Threw (VerifierRejected reason), s')
    | NeverSettles => (Pending, s')
    end.

(** ** The function

    The checks that the source writes as commented blocks are named after
    their comments; [verifyAuthenticationResponse] runs them in the order of
    the source. *)

Section VerifyAuthenticationResponse.

Context {W : Type} {helpers : Helpers}.

(** Lines 92-108, "Make sure we're handling an authentication". *)
Definition check_response_type (expectedType : option OneOrMany)
    (type : string) : M W unit :=
  match expectedType with
  | Some (Many types) =>
      throw_if (negb (includes types type))
        (UnexpectedResponseType type expectedType)
  | Some (One t) =>
      if negb (t =? EmptyString)%string
      then throw_if (negb (type =? t)%string)
             (UnexpectedResponseType type expectedType)
      else throw_if (negb (type =? "webauthn.get")%string)
             (UnexpectedResponseType type expectedType)
  | None =>
      throw_if (negb (type =? "webauthn.get")%string)
        (UnexpectedResponseType type expectedType)
  end.

(** Lines 110-121, "Ensure the device provided the challenge we gave it". *)
Definition check_challenge (expectedChallenge : ExpectedChallenge W)
    (challenge : string) : M W unit :=
  match expectedChallenge with
  | ChallengeVerifier f =>
      accepted <- await_verifier f challenge ;;
      throw_if (negb accepted) (VerifierReturnedFalse challenge)
  | ChallengeLiteral expected =>
      throw_if (negb (challenge =? expected)%string)
        (UnexpectedChallenge challenge expected)
  end.

(** Lines 123-137, "Check that the origin is our site". *)
Definition check_origin (expectedOrigin : OneOrMany) (origin : string)
    : M W unit :=
  match expectedOrigin with
  | Many origins =>
      throw_if (negb (includes origins origin))
        (UnexpectedOrigin origin expectedOrigin)
  | One o =>
      throw_if (negb (origin =? o)%string)
        (UnexpectedOrigin origin expectedOrigin)
  end.

(** Lines 156-166. *)
Definition check_tokenBinding (tokenBinding : JSValue) : M W unit :=
  if truthy tokenBinding
  then
    throw_if (negb (typeof tokenBinding =? "object")%string)
      TokenBindingNotObject ;;
    throw_if (indexOf [JSString "present"; JSString "supported";
                       JSString "notSupported"]
                (get_prop tokenBinding "status") <? 0)
      (UnexpectedTokenBindingStatus (get_prop tokenBinding "status"))
  else ret tt.

(** Lines 184-218, the rules for the UP and UV flags. *)
Definition check_flags (advancedFIDOConfig : option AdvancedFIDOConfig)
    (requireUserVerification : bool) (flags : AuthenticatorFlags) : M W unit :=
  match advancedFIDOConfig with
  | Some config =>
      let fidoUserVerification := userVerification config in
      match fidoUserVerification with
      | Some UVRequired =>
          throw_if (negb (uv flags)) UserVerificationRequired
      | Some UVPreferred | Some UVDiscouraged => ret tt
      | None => ret tt
      end
  | None =>
      throw_if (negb (up flags)) UserNotPresent ;;
      throw_if (requireUserVerification && negb (uv flags))
        UserVerificationRequired
  end.

Definition verifyAuthenticationResponse (options : Options W)
    : M W VerifiedAuthenticationResponse :=
  (* lines 51-61 *)
  let response := response options in
  let expectedChallenge := expectedChallenge options in
  let expectedOrigin := expectedOrigin options in
  let expectedRPID := expectedRPID options in
  let expectedType := expectedType options in
  let requireUserVerification :=
    match requireUserVerification options with
    | Some b => b
    | None => true
    end in
  let advancedFIDOConfig := advancedFIDOConfig options in
  throw_if (is_nullish response) DestructureTypeError ;;
  let id := get_prop response "id" in
  let rawId := get_prop response "rawId" in
  let credentialType := get_prop response "type" in
  let assertionResponse := get_prop response "response" in
  (* lines 63-86 *)
  throw_if (negb (truthy id)) MissingCredentialID ;;
  throw_if (negb (strict_eq id rawId)) CredentialIDNotBase64URL ;;
  throw_if (negb (strict_eq credentialType (JSString "public-key")))
    (UnexpectedCredentialType credentialType) ;;
  throw_if (negb (truthy response)) CredentialMissingResponse ;;
  clientDataJSON_b64 <-
    match get_prop assertionResponse "clientDataJSON" with
    | JSString s => ret s
    | _ => throw ClientDataJSONNotString
    end ;;
  (* lines 88-90 *)
  clientDataJSON <- call AtDecodeClientDataJSON
                      (decodeClientDataJSON clientDataJSON_b64) ;;
  let type := cd_type clientDataJSON in
  let origin := cd_origin clientDataJSON in
  let challenge := cd_challenge clientDataJSON in
  let tokenBinding := cd_tokenBinding clientDataJSON in
  (* lines 92-137 *)
  check_response_type expectedType type ;;
  check_challenge expectedChallenge challenge ;;
  check_origin expectedOrigin origin ;;
  (* lines 139-154 *)
  authenticatorDataOK <- call AtIsBase64URLAuthenticatorData
      (isBase64URL (get_prop assertionResponse "authenticatorData")) ;;
  throw_if (negb authenticatorDataOK) AuthenticatorDataNotBase64URL ;;
  signatureOK <- call AtIsBase64URLSignature
      (isBase64URL (get_prop assertionResponse "signature")) ;;
  throw_if (negb signatureOK) SignatureNotBase64URL ;;
  let userHandle := get_prop assertionResponse "userHandle" in
  throw_if (truthy userHandle && negb (typeof userHandle =? "string")%string)
    UserHandleNotString ;;
  (* lines 156-166 *)
  check_tokenBinding tokenBinding ;;
  (* lines 168-172 *)
  authDataBuffer <- call AtToBufferAuthenticatorData
      (toBuffer (get_prop assertionResponse "authenticatorData")) ;;
  parsedAuthData <- call AtParseAuthenticatorData
      (parseAuthenticatorData authDataBuffer) ;;
  let rpIdHash := rpIdHash parsedAuthData in
  let flags := flags parsedAuthData in
  let counter := counter parsedAuthData in
  let extensionsData := extensionsData parsedAuthData in
  (* lines 174-182 *)
  let expectedRPIDs :=
    match expectedRPID with
    | One r => [r]
    | Many rs => rs
    end in
  matchedRPID <- call AtMatchExpectedRPID
      (matchExpectedRPID rpIdHash expectedRPIDs) ;;
  (* lines 184-218 *)
  check_flags advancedFIDOConfig requireUserVerification flags ;;
  (* lines 220-225 *)
  clientDataBuffer <- call AtToBufferClientDataJSON
      (toBuffer (JSString clientDataJSON_b64)) ;;
  clientDataHash <- call AtToHash (toHash clientDataBuffer) ;;
  let signatureBase := isoUint8Array_concat [authDataBuffer; clientDataHash] in
  signature <- call AtToBufferSignature
      (toBuffer (get_prop assertionResponse "signature")) ;;
  (* lines 227-238 *)
  storedCounter <- read_credential cred_counter ;;
  throw_if (((counter >? 0) || (storedCounter >? 0))
            && (counter <=? storedCounter))
    (CounterRegression counter storedCounter) ;;
  (* line 240 *)
  backup <- call AtParseBackupFlags (parseBackupFlags flags) ;;
  (* lines 242-260; [verified] is the first property evaluated *)
  credentialPublicKey <- read_credential cred_publicKey ;;
  emit (EvVerifySignature signature signatureBase credentialPublicKey) ;;
  verified <- call AtVerifySignature
      (verifySignature signature signatureBase credentialPublicKey) ;;
  credentialID <- read_credential cred_id ;;
  ret {| verified := verified;
         authenticationInfo :=
           {| newCounter := counter;
              credentialID := credentialID;
              userVerified := uv flags;
              credentialDeviceType := fst backup;
              credentialBackedUp := snd backup;
              authenticatorExtensionResults := extensionsData;
              origin := cd_origin clientDataJSON;
              rpID := matchedRPID |} |}.

End VerifyAuthenticationResponse.

(** ** What each check accepts

    The tests of the check blocks as boolean functions of their inputs, and
    the error a failed check throws. *)

Definition type_accepted (expectedType : option OneOrMany) (type : string)
    : bool :=
  match expectedType with
  | Some (Many types) => includes types type
  | Some (One t) =>
      if (t =? EmptyString)%string then (type =? "webauthn.get")%string
      else (type =? t)%string
  | None => (type =? "webauthn.get")%string
  end.

Definition origin_accepted (expectedOrigin : OneOrMany) (origin : string)
    : bool :=
  match expectedOrigin with
  | Many origins => includes origins origin
  | One o => (origin =? o)%string
  end.

Definition tokenBinding_status_known (tokenBinding : JSValue) : bool :=
  0 <=? indexOf [JSString "present"; JSString "supported";
                 JSString "notSupported"] (get_prop tokenBinding "status").

Definition tokenBinding_accepted (tokenBinding : JSValue) : bool :=
  negb (truthy tokenBinding)
  || ((typeof tokenBinding =? "object")%string
      && tokenBinding_status_known tokenBinding).

Definition tokenBinding_rejection (tokenBinding : JSValue) : VerifyError :=
  if (typeof tokenBinding =? "object")%string
  then UnexpectedTokenBindingStatus (get_prop tokenBinding "status")
  else TokenBindingNotObject.

(** The flag policy in the words of the specification: standard mode (no
    [advancedFIDOConfig]) requires [up] and, if user verification is required,
    [uv]; advanced mode requires [uv] exactly when the requirement is
    ["required"] and nothing otherwise. *)
Definition flag_policy (advancedFIDOConfig : option AdvancedFIDOConfig)
    (requireUserVerification : bool) (flags : AuthenticatorFlags) : bool :=
  match advancedFIDOConfig with
  | None => up flags && implb requireUserVerification (uv flags)
  | Some config =>
      match userVerification config with
      | Some UVRequired => uv flags
      | _ => true
      end
  end.

Definition flags_rejection (advancedFIDOConfig : option AdvancedFIDOConfig)
    (flags : AuthenticatorFlags) : VerifyError :=
  match advancedFIDOConfig with
  | None => if up flags then UserVerificationRequired else UserNotPresent
  | Some _ => UserVerificationRequired
  end.

(** The counter test of lines 227-230. *)
Definition counter_regressed (observed stored : Z) : bool :=
  ((observed >? 0) || (stored >? 0)) && (observed <=? stored).

(** The default of [requireUserVerification]. *)
Definition effective_requireUserVerification {W} (options : Options W) : bool :=
  match requireUserVerification options with
  | Some b => b
  | None => true
  end.

(** The [response] member of the submitted credential. *)
Definition assertionResponse {W} (options : Options W) : JSValue :=
  get_prop (response options) "response".

(** ** Path conditions

    What a request must satisfy to get as far as a given check, as
    conditions on the inputs. *)

Section PathConditions.

Context {W : Type} {helpers : Helpers}.

(** Lines 61-108 pass: the response is a public-key credential whose client
    data decodes to [cd], of an expected type. *)
Definition reaches_challenge_check (options : Options W) (cd : ClientDataJSON)
    : Prop :=
  is_nullish (response options) = false /\
  truthy (get_prop (response options) "id") = true /\
  strict_eq (get_prop (response options) "id")
            (get_prop (response options) "rawId") = true /\
  strict_eq (get_prop (response options) "type") (JSString "public-key")
    = true /\
  (exists b64,
      get_prop (assertionResponse options) "clientDataJSON" = JSString b64 /\
      decodeClientDataJSON b64 = inr cd) /\
  type_accepted (expectedType options) (cd_type cd) = true.

(** The challenge check passes in world [w]. *)
Definition challenge_accepted (options : Options W) (w : W)
    (challenge : string) : Prop :=
  match expectedChallenge options with
  | ChallengeLiteral expected => (challenge =? expected)%string = true
  | ChallengeVerifier f => fst (f challenge w) = Resolves true
  end.

(** The challenge is rejected: the literal differs, or the verifier resolves
    to [false]. *)
Definition challenge_rejected (options : Options W) (w : W)
    (challenge : string) : Prop :=
  match expectedChallenge options with
  | ChallengeLiteral expected => (challenge =? expected)%string = false
  | ChallengeVerifier f => fst (f challenge w) = Resolves false
  end.

(** The store once the challenge check has run. *)
Definition after_challenge (options : Options W) (challenge : string)
    (s : Store W) : Store W :=
  match expectedChallenge options with
  | ChallengeLiteral _ => s
  | ChallengeVerifier f =>
      {| credential := credential s;
         world := snd (f challenge (world s));
         trace := trace s ++ [EvChallengeVerifier challenge] |}
  end.

Definition reaches_origin_check (options : Options W) (s : Store W)
    (cd : ClientDataJSON) : Prop :=
  reaches_challenge_check options cd /\
  challenge_accepted options (world s) (cd_challenge cd).

(** Lines 61-137 pass. *)
Definition reaches_encoding_checks (options : Options W) (s : Store W)
    (cd : ClientDataJSON) : Prop :=
  reaches_origin_check options s cd /\
  origin_accepted (expectedOrigin options) (cd_origin cd) = true.

(** What the function derives from a request on its way to the signature
    check. *)
Record Derived : Type := {
  d_clientData : ClientDataJSON;
  d_authDataBuffer : bytes;
  d_parsed : ParsedAuthenticatorData;
  d_matchedRPID : string;
  d_clientDataHash : bytes;
  d_signature : bytes;
  d_backup : CredentialDeviceType * bool
}.

(** Lines 61-225 pass, with [d] the values derived on the way ([d_backup]
    is not derived yet). *)
Definition reaches_counter_check (options : Options W) (s : Store W)
    (d : Derived) : Prop :=
  let r := assertionResponse options in
  reaches_encoding_checks options s (d_clientData d) /\
  isBase64URL (get_prop r "authenticatorData") = inr true /\
  isBase64URL (get_prop r "signature") = inr true /\
  truthy (get_prop r "userHandle")
    && negb (typeof (get_prop r "userHandle") =? "string")%string = false /\
  tokenBinding_accepted (cd_tokenBinding (d_clientData d)) = true /\
  toBuffer (get_prop r "authenticatorData") = inr (d_authDataBuffer d) /\
  parseAuthenticatorData (d_authDataBuffer d) = inr (d_parsed d) /\
  matchExpectedRPID (rpIdHash (d_parsed d))
    (match expectedRPID options with One x => [x] | Many xs => xs end)
    = inr (d_matchedRPID d) /\
  flag_policy (advancedFIDOConfig options)
    (effective_requireUserVerification options) (flags (d_parsed d)) = true /\
  (exists b64 buffer,
      get_prop r "clientDataJSON" = JSString b64 /\
      toBuffer (JSString b64) = inr buffer /\
      toHash buffer = inr (d_clientDataHash d)) /\
  toBuffer (get_prop r "signature") = inr (d_signature d).

(** Every structural and policy check passes (lines 61-240): only the
    signature remains to be verified. *)
Definition passes_all_checks (options : Options W) (s : Store W) (d : Derived)
    : Prop :=
  reaches_counter_check options s d /\
  counter_regressed (counter (d_parsed d)) (cred_counter (credential s))
    = false /\
  parseBackupFlags (flags (d_parsed d)) = inr (d_backup d).

(** The record built at lines 242-258. *)
Definition result_record (s : Store W) (d : Derived) (verified : bool)
    : VerifiedAuthenticationResponse :=
  {| verified := verified;
     authenticationInfo :=
       {| newCounter := counter (d_parsed d);
          credentialID := cred_id (credential s);
          userVerified := uv (flags (d_parsed d));
          credentialDeviceType := fst (d_backup d);
          credentialBackedUp := snd (d_backup d);
          authenticatorExtensionResults := extensionsData (d_parsed d);
          origin := cd_origin (d_clientData d);
          rpID := d_matchedRPID d |} |}.

(** The store when the signature has been submitted for verification. *)
Definition after_verification (options : Options W) (s : Store W) (d : Derived)
    : Store W :=
  let s1 := after_challenge options (cd_challenge (d_clientData d)) s in
  {| credential := credential s;
     world := world s1;
     trace := trace s1
              ++ [EvVerifySignature (d_signature d)
                    (d_authDataBuffer d ++ d_clientDataHash d)
                    (cred_publicKey (credential s))] |}.

(** The authenticator data of the request as the function parses it. *)
Definition observed_authData (options : Options W)
    : option ParsedAuthenticatorData :=
  match toBuffer (get_prop (assertionResponse options) "authenticatorData") with
  | inr buffer =>
      match parseAuthenticatorData buffer with
      | inr parsed => Some parsed
      | inl _ => None
      end
  | inl _ => None
  end.

End PathConditions.

(** ** The frame of a computation *)

Section FrameDefinitions.

Context {W : Type}.

(** The stores agree on what a run may read; [Rw] relates their worlds. *)
Definition similar (Rw : W -> W -> Prop) (s s2 : Store W) : Prop :=
  cred_id (credential s2) = cred_id (credential s) /\
  cred_publicKey (credential s2) = cred_publicKey (credential s) /\
  cred_counter (credential s2) = cred_counter (credential s) /\
  Rw (world s) (world s2).

(** From similar stores, [m] has the same outcome and appends the same
    events; it leaves both credentials alone and the worlds related. *)
Definition framed (Rw : W -> W -> Prop) {A} (m : M W A) : Prop :=
  forall s s2, similar Rw s s2 ->
    exists evs,
      fst (m s2) = fst (m s) /\
      Rw (world (snd (m s))) (world (snd (m s2))) /\
      credential (snd (m s)) = credential s /\
      credential (snd (m s2)) = credential s2 /\
      trace (snd (m s)) = trace s ++ evs /\
      trace (snd (m s2)) = trace s2 ++ evs.

End FrameDefinitions.

(** The events of a trace that are signature verifications, and those that
    are calls of the challenge verifier. *)
Definition is_signature_verification (ev : Event) : bool :=
  match ev with
  | EvVerifySignature _ _ _ => true
  | EvChallengeVerifier _ => false
  end.

Definition is_verifier_call (ev : Event) : bool :=
  match ev with
  | EvChallengeVerifier _ => true
  | EvVerifySignature _ _ _ => false
  end.

Definition signature_verifications (evs : list Event) : nat :=
  length (filter is_signature_verification evs).

Definition verifier_calls (evs : list Event) : nat :=
  length (filter is_verifier_call evs).

(** The store with the credential's counter set to [n] (by the caller, between
    calls). *)
Definition with_counter {W} (s : Store W) (n : Z) : Store W :=
  {| credential := {| cred_id := cred_id (credential s);
                      cred_publicKey := cred_publicKey (credential s);
                      cred_counter := n;
                      cred_transports := cred_transports (credential s) |};
     world := world s;
     trace := trace s |}.

(** The outcomes of a run that got as far as line 243: a result, or an
    exception out of [verifySignature]. *)
Definition reached_verification {A} (o : Outcome A) : bool :=
  match o with
  | Returned _ => true
  | Threw (HelperThrew AtVerifySignature _) => true
  | _ => false
  end.

(** The outcomes in which the challenge check itself ended the run. *)
Definition is_challenge_failure {A} (o : Outcome A) : bool :=
  match o with
  | Pending => true
  | Threw (VerifierReturnedFalse _) => true
  | Threw (VerifierRejected _) => true
  | Threw (UnexpectedChallenge _ _) => true
  | _ => false
  end.

(** The errors of structural validation (lines 63-86 and 139-154). *)
Definition is_structural_error (e : VerifyError) : bool :=
  match e with
  | MissingCredentialID | CredentialIDNotBase64URL
  | UnexpectedCredentialType _ | CredentialMissingResponse
  | ClientDataJSONNotString | AuthenticatorDataNotBase64URL
  | SignatureNotBase64URL | UserHandleNotString => true
  | _ => false
  end.

(** [v.key = x] on an object. *)
Definition set_prop (v : JSValue) (key : string) (x : JSValue) : JSValue :=
  match v with
  | JSObject ref props => JSObject ref ((key, x) :: props)
  | _ => v
  end.

(** The same request with the credential ID [i] as both [id] and [rawId]. *)
Definition with_response_id {W} (options : Options W) (i : string)
    : Options W :=
  {| response := set_prop (set_prop (response options) "id" (JSString i))
                   "rawId" (JSString i);
     expectedChallenge := expectedChallenge options;
     expectedOrigin := expectedOrigin options;
     expectedRPID := expectedRPID options;
     expectedType := expectedType options;
     requireUserVerification := requireUserVerification options;
     advancedFIDOConfig := advancedFIDOConfig options |}.

(** ** Variations of a request

    The same options with one member replaced, to compare calls. *)

Definition with_expectedOrigin {W} (options : Options W) (v : OneOrMany)
    : Options W :=
  {| response := response options;
     expectedChallenge := expectedChallenge options;
     expectedOrigin := v;
     expectedRPID := expectedRPID options;
     expectedType := expectedType options;
     requireUserVerification := requireUserVerification options;
     advancedFIDOConfig := advancedFIDOConfig options |}.

Definition with_expectedRPID {W} (options : Options W) (v : OneOrMany)
    : Options W :=
  {| response := response options;
     expectedChallenge := expectedChallenge options;
     expectedOrigin := expectedOrigin options;
     expectedRPID := v;
     expectedType := expectedType options;
     requireUserVerification := requireUserVerification options;
     advancedFIDOConfig := advancedFIDOConfig options |}.

Definition with_expectedType {W} (options : Options W)
    (v : option OneOrMany) : Options W :=
  {| response := response options;
     expectedChallenge := expectedChallenge options;
     expectedOrigin := expectedOrigin options;
     expectedRPID := expectedRPID options;
     expectedType := v;
     requireUserVerification := requireUserVerification options;
     advancedFIDOConfig := advancedFIDOConfig options |}.

(** The same request with [response.response.userHandle = u]. *)
Definition with_userHandle {W} (options : Options W) (u : JSValue)
    : Options W :=
  {| response :=
       set_prop (response options) "response"
         (set_prop (get_prop (response options) "response") "userHandle" u);
     expectedChallenge := expectedChallenge options;
     expectedOrigin := expectedOrigin options;
     expectedRPID := expectedRPID options;
     expectedType := expectedType options;
     requireUserVerification := requireUserVerification options;
     advancedFIDOConfig := advancedFIDOConfig options |}.

(** The same options for another response. *)
Definition with_response {W} (options : Options W) (v : JSValue)
    : Options W :=
  {| response := v;
     expectedChallenge := expectedChallenge options;
     expectedOrigin := expectedOrigin options;
     expectedRPID := expectedRPID options;
     expectedType := expectedType options;
     requireUserVerification := requireUserVerification options;
     advancedFIDOConfig := advancedFIDOConfig options |}.

(** The members of the credential and of its [response] that the function
    reads (lines 61, 84, 139, 145 and 150). *)
Definition credential_members_read : list string :=
  ["id"; "rawId"; "type"; "response"].

Definition response_members_read : list string :=
  ["clientDataJSON"; "authenticatorData"; "signature"; "userHandle"].

(** A [userHandle] that the test of lines 149-154 lets through: a falsy
    value or a string. *)
Definition userHandle_passes (u : JSValue) : Prop :=
  truthy u = false \/ exists str, u = JSString str.

(** The token-binding statuses of line 162. *)
Definition known_tokenBinding_statuses : list JSValue :=
  [JSString "present"; JSString "supported"; JSString "notSupported"].

(** ** A test bench

    Helpers to run the function with, and an authenticator that produces
    assertions for them; the scenarios of the specification are run on this
    bench.  The helpers are not among the sources: the codec, the client data
    decoder, the authenticator data parser, the RP ID matcher and the backup
    flags are modelled from the specification; the digest and the signature
    scheme are toys of the right shape (a 32-byte digest, a keyed tag), since
    the function treats both as black boxes. *)

Module Fixture.

Definition dquote : ascii := ascii_of_nat 34.

Definition alphabet : string :=
  "ABCDEFGHIJKLMNOPQRSTUVWXYZabcdefghijklmnopqrstuvwxyz0123456789-_".

Fixpoint position (c : ascii) (s : string) (i : N) : option N :=
  match s with
  | EmptyString => None
  | String x rest => if Ascii.eqb x c then Some i else position c rest (i + 1)%N
  end.

Definition sextet (c : ascii) : option N := position c alphabet 0%N.

Definition digit (n : N) : ascii :=
  match String.get (N.to_nat n) alphabet with
  | Some c => c
  | None => "A"%char
  end.

Definition octet (n : N) : byte :=
  match Byte.of_N (n mod 256) with
  | Some b => b
  | None => x00
  end.

(** Modelled from the spec: [isoBase64URL.fromBuffer] is not among the
    sources; section 4.1, unpadded base64url of a byte string. *)
Fixpoint encode (data : bytes) : string :=
  match data with
  | a :: b :: c :: rest =>
      let n := (Byte.to_N a * 65536 + Byte.to_N b * 256 + Byte.to_N c)%N in
      String (digit (n / 262144)) (String (digit ((n / 4096) mod 64))
        (String (digit ((n / 64) mod 64)) (String (digit (n mod 64))
          (encode rest))))
  | [a; b] =>
      let n := (Byte.to_N a * 1024 + Byte.to_N b * 4)%N in
      String (digit (n / 4096)) (String (digit ((n / 64) mod 64))
        (String (digit (n mod 64)) EmptyString))
  | [a] =>
      let n := (Byte.to_N a * 16)%N in
      String (digit (n / 64)) (String (digit (n mod 64)) EmptyString)
  | [] => EmptyString
  end.

Fixpoint sextets (s : string) : option (list N) :=
  match s with
  | EmptyString => Some []
  | String c rest =>
      match sextet c, sextets rest with
      | Some n, Some l => Some (n :: l)
      | _, _ => None
      end
  end.

Fixpoint octets (l : list N) : option bytes :=
  match l with
  | a :: b :: c :: d :: rest =>
      let n := (((a * 64 + b) * 64 + c) * 64 + d)%N in
      option_map (fun tl => octet (n / 65536) :: octet (n / 256) :: octet n :: tl)
        (octets rest)
  | [a; b; c] =>
      let n := ((a * 64 + b) * 64 + c)%N in
      Some [octet (n / 1024); octet (n / 4)]
  | [a; b] => Some [octet ((a * 64 + b) / 16)]
  | [_] => None
  | [] => Some []
  end.

(** Modelled from the spec: [isoBase64URL.toBuffer] and
    [isoBase64URL.isBase64URL] are not among the sources; section 4.1, strict
    decoding, no padding and no character outside the alphabet, the validity
    test being the same check. *)
Definition decode (s : string) : option bytes :=
  match sextets s with
  | Some l => octets l
  | None => None
  end.

Definition fx_isBase64URL (v : JSValue) : Exn + bool :=
  match v with
  | JSString s => inr (match sextets s with Some _ => true | None => false end)
  | _ => inl "TypeError: input.replace is not a function"
  end.

Definition fx_toBuffer (v : JSValue) : Exn + bytes :=
  match v with
  | JSString s =>
      match decode s with
      | Some data => inr data
      | None => inl "Invalid base64url"
      end
  | _ => inl "TypeError: input.replace is not a function"
  end.

(** Modelled from the spec: [decodeClientDataJSON] is not among the
    sources; section 4.2, the base64url text decodes to a JSON object with the
    string members [type], [challenge] and [origin].  The bench reads flat
    objects whose members are strings without escapes, and no token
    binding. *)
Fixpoint after (pattern text : string) : option string :=
  if String.prefix pattern text
  then Some (String.substring (String.length pattern)
               (String.length text - String.length pattern) text)
  else match text with
       | EmptyString => None
       | String _ rest => after pattern rest
       end.

Fixpoint up_to_quote (text : string) : option string :=
  match text with
  | EmptyString => None
  | String c rest =>
      if Ascii.eqb c dquote then Some EmptyString
      else option_map (String c) (up_to_quote rest)
  end.

Definition quoted (s : string) : string :=
  String dquote (s ++ String dquote EmptyString).

Definition member (key text : string) : option string :=
  match after (quoted key ++ ":" ++ String dquote EmptyString) text with
  | Some tail => up_to_quote tail
  | None => None
  end.

Fixpoint members_text (members : list (string * string)) : string :=
  match members with
  | [] => EmptyString
  | [(k, v)] => quoted k ++ ":" ++ quoted v
  | (k, v) :: rest => quoted k ++ ":" ++ quoted v ++ "," ++ members_text rest
  end.

Definition json_object (members : list (string * string)) : string :=
  "{" ++ members_text members ++ "}".

Definition fx_decodeClientDataJSON (data : string) : Exn + ClientDataJSON :=
  match decode data with
  | None => inl "Invalid base64url"
  | Some raw =>
      let text := string_of_list_byte raw in
      match member "type" text, member "challenge" text, member "origin" text with
      | Some t, Some c, Some o =>
          inr {| cd_type := t; cd_challenge := c; cd_origin := o;
                 cd_tokenBinding := JSUndefined |}
      | _, _, _ => inl "SyntaxError: malformed client data"
      end
  end.

(** Modelled from the spec: [parseAuthenticatorData] is not among the
    sources; sections 4.3 and 6, 32 bytes of RP ID hash, the flag byte
    (bit 0 [up], bit 2 [uv], bit 3 [be], bit 4 [bs], bit 6 [at], bit 7 [ed]),
    the big-endian 32-bit counter.  Attested credential data and extensions
    are outside this bench. *)
Definition fx_parseAuthenticatorData (buffer : bytes)
    : Exn + ParsedAuthenticatorData :=
  if (length buffer <? 37)%nat
  then inl "Authenticator data was too short"
  else
    let f := Byte.to_N (nth 32 buffer x00) in
    let b (i : nat) := Z.of_N (Byte.to_N (nth i buffer x00)) in
    if N.testbit f 6 || N.testbit f 7
    then inl "attested credential data and extensions are not supported"
    else if negb (length buffer =? 37)%nat
    then inl "Leftover bytes detected while parsing authenticator data"
    else
      inr {| rpIdHash := firstn 32 buffer;
             flags := {| up := N.testbit f 0; uv := N.testbit f 2;
                         be := N.testbit f 3; bs := N.testbit f 4;
                         at_ := N.testbit f 6; ed := N.testbit f 7;
                         flagsInt := Z.of_N f |};
             counter := ((b 33%nat * 256 + b 34%nat) * 256 + b 35%nat) * 256
                        + b 36%nat;
             extensionsData := JSUndefined |}.

Fixpoint big_endian (width : nat) (n : N) : bytes :=
  match width with
  | O => []
  | S w => big_endian w (n / 256) ++ [octet n]
  end.

(** A toy 32-byte digest: every input byte is mixed into a rotating state
    of 32 octets. *)
Fixpoint mix (c : N) (i : N) (h : list N) : list N :=
  match h with
  | [] => []
  | y :: rest => ((y * 5 + c * (2 * i + 3) + i) mod 256)%N :: mix c (i + 1) rest
  end.

Definition digest_step (h : list N) (b : byte) : list N :=
  match h with
  | [] => []
  | x :: rest =>
      let c := ((x * 167 + Byte.to_N b + 1) mod 256)%N in
      mix c 0 rest ++ [c]
  end.

Definition toy_digest (data : bytes) : bytes :=
  map octet (fold_left digest_step data (repeat 7%N 32)).

Definition fx_toHash (data : bytes) : Exn + bytes := inr (toy_digest data).

Fixpoint bytes_eqb (a b : bytes) : bool :=
  match a, b with
  | [], [] => true
  | x :: a', y :: b' => Byte.eqb x y && bytes_eqb a' b'
  | _, _ => false
  end.

(** A toy signature: the tag of the data under the key, which serves as
    both private and public key. *)
Definition toy_sign (key data : bytes) : bytes := toy_digest (key ++ data).

Definition fx_verifySignature (signature data credentialPublicKey : bytes)
    : Exn + bool :=
  match credentialPublicKey with
  | [] => inl "Public key was missing"
  | _ => inr (bytes_eqb signature (toy_sign credentialPublicKey data))
  end.

(** Modelled from the spec: [matchExpectedRPID] is not among the sources;
    section 4.6, the first expected RP ID, in the caller's order, whose digest
    is the RP ID hash. *)
Fixpoint fx_matchExpectedRPID (rpIDHash : bytes) (expectedRPIDs : list string)
    : Exn + string :=
  match expectedRPIDs with
  | [] => inl "Unexpected RP ID hash"
  | r :: rest =>
      if bytes_eqb (toy_digest (list_byte_of_string r)) rpIDHash then inr r
      else fx_matchExpectedRPID rpIDHash rest
  end.

(** Modelled from the spec: [parseBackupFlags] is not among the sources;
    section 4.9, [be] tells multi-device from single-device and [bs] counts
    only when [be] is set (a single-device credential is never backed up). *)
Definition fx_parseBackupFlags (flags : AuthenticatorFlags)
    : Exn + (CredentialDeviceType * bool) :=
  if be flags then inr (MultiDevice, bs flags)
  else inr (SingleDevice, false).

Definition helpers : Helpers := {|
  decodeClientDataJSON := fx_decodeClientDataJSON;
  isBase64URL := fx_isBase64URL;
  toBuffer := fx_toBuffer;
  parseAuthenticatorData := fx_parseAuthenticatorData;
  matchExpectedRPID := fx_matchExpectedRPID;
  toHash := fx_toHash;
  parseBackupFlags := fx_parseBackupFlags;
  verifySignature := fx_verifySignature
|}.

(** *** The authenticator and the relying party of the scenarios *)

Definition clientData (type challenge origin : string) : string :=
  encode (list_byte_of_string
            (json_object [("type", type); ("challenge", challenge);
                          ("origin", origin)])).

Definition authData (rpID : string) (flagByte : byte) (count : N) : bytes :=
  toy_digest (list_byte_of_string rpID) ++ [flagByte] ++ big_endian 4 count.

Definition signed_data (clientDataJSON : string) (authenticatorData : bytes)
    : bytes :=
  authenticatorData
  ++ toy_digest (match decode clientDataJSON with Some d => d | None => [] end).

Definition assertion_with (id rawId : JSValue) (clientDataJSON : string)
    (authenticatorData signature : bytes) (extra : list (string * JSValue))
    : JSValue :=
  JSObject 1
    [("id", id); ("rawId", rawId); ("type", JSString "public-key");
     ("response",
      JSObject 2
        ([("clientDataJSON", JSString clientDataJSON);
          ("authenticatorData", JSString (encode authenticatorData));
          ("signature", JSString (encode signature))] ++ extra))].

(** What an authenticator holding [key] answers. *)
Definition assertion (credentialId : string) (key : bytes)
    (clientDataJSON : string) (authenticatorData : bytes) : JSValue :=
  assertion_with (JSString credentialId) (JSString credentialId)
    clientDataJSON authenticatorData
    (toy_sign key (signed_data clientDataJSON authenticatorData)) [].

Definition key : bytes := [x6b; x65; x79; x2d; x31].

Definition credentialId : string := "Y3JlZC0x".

(** The caller's world: the challenges issued and not yet used. *)
Definition World : Type := list string.

Definition stored (count : Z) (issued : World) : Store World :=
  {| credential := {| cred_id := credentialId; cred_publicKey := key;
                      cred_counter := count; cred_transports := None |};
     world := issued;
     trace := [] |}.

(** A challenge verifier that accepts an issued challenge once. *)
Definition use_challenge (challenge : string) (issued : World)
    : VerifierOutcome * World :=
  if includes issued challenge
  then (Resolves true,
        filter (fun c => negb (c =? challenge)%string) issued)
  else (Resolves false, issued).

Definition get_clientData : string :=
  clientData "webauthn.get" "abc123" "https://example.com".

(** Flags [up] and [uv], counter 5. *)
Definition get_authData : bytes := authData "example.com" x05 5.

Definition expecting (challenge : ExpectedChallenge World) (r : JSValue)
    : Options World :=
  {| response := r;
     expectedChallenge := challenge;
     expectedOrigin := One "https://example.com";
     expectedRPID := One "example.com";
     expectedType := None;
     requireUserVerification := None;
     advancedFIDOConfig := None |}.

(** Scenario A: the request is in order. *)
Definition scenarioA : Options World :=
  expecting (ChallengeLiteral "abc123")
    (assertion credentialId key get_clientData get_authData).

Definition resultA : VerifiedAuthenticationResponse :=
  {| verified := true;
     authenticationInfo :=
       {| credentialID := credentialId;
          newCounter := 5;
          userVerified := true;
          credentialDeviceType := SingleDevice;
          credentialBackedUp := false;
          origin := "https://example.com";
          rpID := "example.com";
          authenticatorExtensionResults := JSUndefined |} |}.

(** Scenario C: the client data names another origin. *)
Definition evil_clientData : string :=
  clientData "webauthn.get" "abc123" "https://evil.example".

Definition scenarioC : Options World :=
  expecting (ChallengeLiteral "abc123")
    (assertion credentialId key evil_clientData get_authData).

(** Scenario D: the challenge is checked by the caller's verifier. *)
Definition scenarioD : Options World :=
  expecting (ChallengeVerifier use_challenge)
    (assertion credentialId key get_clientData get_authData).

(** Scenario E: the signature of scenario A with its last bit flipped. *)
Definition flip_last_bit (data : bytes) : bytes :=
  match rev data with
  | [] => []
  | b :: front =>
      rev front ++ [octet (N.lxor (Byte.to_N b) 1)]
  end.

Definition forged_signature : bytes :=
  flip_last_bit (toy_sign key (signed_data get_clientData get_authData)).

Definition scenarioE : Options World :=
  expecting (ChallengeLiteral "abc123")
    (assertion_with (JSString credentialId) (JSString credentialId)
       get_clientData get_authData forged_signature []).

(** What the function derives from the request of scenario E. *)
Definition derivedE : Derived :=
  {| d_clientData :=
       {| cd_type := "webauthn.get"; cd_challenge := "abc123";
          cd_origin := "https://example.com";
          cd_tokenBinding := JSUndefined |};
     d_authDataBuffer := get_authData;
     d_parsed :=
       {| rpIdHash := toy_digest (list_byte_of_string "example.com");
          flags := {| up := true; uv := true; be := false; bs := false;
                      at_ := false; ed := false; flagsInt := 5 |};
          counter := 5;
          extensionsData := JSUndefined |};
     d_matchedRPID := "example.com";
     d_clientDataHash :=
       toy_digest (match decode get_clientData with
                   | Some d => d
                   | None => []
                   end);
     d_signature := forged_signature;
     d_backup := (SingleDevice, false) |}.

(** A request without user verification ([up] only), and the advanced
    configuration that discourages it. *)
Definition presence_only : JSValue :=
  assertion credentialId key get_clientData (authData "example.com" x01 5).

Definition discouraged (options : Options World) : Options World :=
  {| response := response options;
     expectedChallenge := expectedChallenge options;
     expectedOrigin := expectedOrigin options;
     expectedRPID := expectedRPID options;
     expectedType := expectedType options;
     requireUserVerification := requireUserVerification options;
     advancedFIDOConfig := Some {| userVerification := Some UVDiscouraged |} |}.

(** Malformed requests. *)
Definition empty_id : JSValue :=
  assertion_with (JSString EmptyString) (JSString "abc") get_clientData get_authData
    (toy_sign key (signed_data get_clientData get_authData)) [].

Definition boolean_userHandle : JSValue :=
  assertion_with (JSString credentialId) (JSString credentialId)
    get_clientData get_authData
    (toy_sign key (signed_data get_clientData get_authData))
    [("userHandle", JSBoolean false)].

Definition missing_id : JSValue :=
  assertion_with JSUndefined JSUndefined get_clientData get_authData
    (toy_sign key (signed_data get_clientData get_authData)) [].

(** Another credential ID. *)
Definition otherId : string := "b3RoZXI".

(** A run on the bench. *)
Abbreviation run := (@verifyAuthenticationResponse World helpers).

(** The store of scenario A as another caller might hold it: transports
    recorded, earlier calls in the trace. *)
Definition stored_elsewhere (count : Z) (issued : World) : Store World :=
  {| credential := {| cred_id := credentialId; cred_publicKey := key;
                      cred_counter := count;
                      cred_transports := Some ["usb"; "nfc"] |};
     world := issued;
     trace := [EvChallengeVerifier "earlier"] |}.

(** The bench with a client data decoder that reports the token binding
    [tokenBinding]. *)
Definition helpers_with_tokenBinding (tokenBinding : JSValue) : Helpers := {|
  decodeClientDataJSON := fun data =>
    match fx_decodeClientDataJSON data with
    | inr cd => inr {| cd_type := cd_type cd;
                       cd_challenge := cd_challenge cd;
                       cd_origin := cd_origin cd;
                       cd_tokenBinding := tokenBinding |}
    | inl e => inl e
    end;
  isBase64URL := fx_isBase64URL;
  toBuffer := fx_toBuffer;
  parseAuthenticatorData := fx_parseAuthenticatorData;
  matchExpectedRPID := fx_matchExpectedRPID;
  toHash := fx_toHash;
  parseBackupFlags := fx_parseBackupFlags;
  verifySignature := fx_verifySignature
|}.

(** A stored credential whose public key was lost. *)
Definition stored_without_key (count : Z) : Store World :=
  {| credential := {| cred_id := credentialId; cred_publicKey := [];
                      cred_counter := count; cred_transports := None |};
     world := [];
     trace := [] |}.

End Fixture.

(** ** Equations of the monad *)

Section MonadEquations.

Context {W : Type}.

Lemma bind_ret {A B} (a : A) (k : A -> M W B) (s : Store W) :
  bind (ret a) k s = k a s.
Proof. reflexivity. Qed.

Lemma bind_throw {A B} (e : VerifyError) (k : A -> M W B) (s : Store W) :
  bind (throw e) k s = (Threw e, s).
Proof. reflexivity. Qed.

Lemma bind_bind {A B C} (m : M W A) (k : A -> M W B) (k' : B -> M W C)
    (s : Store W) :
  bind (bind m k) k' s = bind m (fun a => bind (k a) k') s.
Proof. unfold bind. destruct (m s) as [[a | e |] s1]; reflexivity. Qed.

Lemma bind_throw_if {B} (c : bool) (e : VerifyError) (k : unit -> M W B)
    (s : Store W) :
  bind (throw_if c e) k s = if c then (Threw e, s) else k tt s.
Proof. destruct c; reflexivity. Qed.

Lemma bind_call {A B} (site : CallSite) (r : Exn + A) (k : A -> M W B)
    (s : Store W) :
  bind (call site r) k s =
  match r with
  | inr a => k a s
  | inl e => (Threw (HelperThrew site e), s)
  end.
Proof. destruct r; reflexivity. Qed.

Lemma bind_read_credential {A B} (field : WebAuthnCredential -> A)
    (k : A -> M W B) (s : Store W) :
  bind (read_credential field) k s = k (field (credential s)) s.
Proof. reflexivity. Qed.

Lemma bind_emit {B} (ev : Event) (k : unit -> M W B) (s : Store W) :
  bind (emit ev) k s =
  k tt {| credential := credential s; world := world s;
          trace := trace s ++ [ev] |}.
Proof. reflexivity. Qed.

Lemma bind_await_verifier {B} (f : string -> W -> VerifierOutcome * W)
    (challenge : string) (k : bool -> M W B) (s : Store W) :
  bind (await_verifier f challenge) k s =
  let s' := {| credential := credential s; world := snd (f challenge (world s));
               trace := trace s ++ [EvChallengeVerifier challenge] |} in
  match fst (f challenge (world s)) with
  | Resolves b => k b s'
  | Rejects reason => (Threw (VerifierRejected reason), s')
  | NeverSettles => (Pending, s')
  end.
Proof.
  unfold bind, await_verifier; simpl.
  destruct (fst (f challenge (world s))); reflexivity.
Qed.

End MonadEquations.


(** ** Equations of the check blocks *)

Section CheckEquations.

Context {W : Type} {helpers : Helpers}.

Lemma bind_check_response_type {B} expectedType type (k : unit -> M W B) s :
  bind (check_response_type expectedType type) k s =
  if type_accepted expectedType type then k tt s
  else (Threw (UnexpectedResponseType type expectedType), s).
Proof.
  unfold check_response_type, type_accepted.
  destruct expectedType as [[t | types] |]; try destruct (t =? EmptyString)%string;
    simpl; rewrite bind_throw_if;
    match goal with |- context [negb ?c] => destruct c end; reflexivity.
Qed.

Lemma bind_check_challenge_literal {B} expected challenge
    (k : unit -> M W B) s :
  bind (check_challenge (ChallengeLiteral expected) challenge) k s =
  if (challenge =? expected)%string then k tt s
  else (Threw (UnexpectedChallenge challenge expected), s).
Proof.
  unfold check_challenge. rewrite bind_throw_if.
  destruct (challenge =? expected)%string; reflexivity.
Qed.

Lemma bind_check_challenge_verifier {B} f challenge (k : unit -> M W B) s :
  bind (check_challenge (ChallengeVerifier f) challenge) k s =
  let s' := {| credential := credential s;
               world := snd (f challenge (world s));
               trace := trace s ++ [EvChallengeVerifier challenge] |} in
  match fst (f challenge (world s)) with
  | Resolves true => k tt s'
  | Resolves false => (Threw (VerifierReturnedFalse challenge), s')
  | Rejects reason => (Threw (VerifierRejected reason), s')
  | NeverSettles => (Pending, s')
  end.
Proof.
  unfold check_challenge. rewrite bind_bind, bind_await_verifier. cbv zeta.
  destruct (fst (f challenge (world s))) as [[|] | |]; reflexivity.
Qed.

Lemma bind_check_origin {B} expectedOrigin origin (k : unit -> M W B) s :
  bind (check_origin expectedOrigin origin) k s =
  if origin_accepted expectedOrigin origin then k tt s
  else (Threw (UnexpectedOrigin origin expectedOrigin), s).
Proof.
  unfold check_origin, origin_accepted.
  destruct expectedOrigin; rewrite bind_throw_if;
    match goal with |- context [negb ?c] => destruct c end; reflexivity.
Qed.

Lemma bind_check_tokenBinding {B} tokenBinding (k : unit -> M W B) s :
  bind (check_tokenBinding tokenBinding) k s =
  if tokenBinding_accepted tokenBinding then k tt s
  else (Threw (tokenBinding_rejection tokenBinding), s).
Proof.
  unfold check_tokenBinding, tokenBinding_accepted, tokenBinding_rejection,
    tokenBinding_status_known.
  destruct (truthy tokenBinding); simpl; [| reflexivity].
  rewrite bind_bind, bind_throw_if.
  destruct (typeof tokenBinding =? "object")%string; simpl; [| reflexivity].
  rewrite bind_throw_if.
  destruct (Z.ltb_spec
              (indexOf [JSString "present"; JSString "supported";
                        JSString "notSupported"]
                 (get_prop tokenBinding "status")) 0) as [Hlt | Hge].
  - destruct (Z.leb_spec 0
                (indexOf [JSString "present"; JSString "supported";
                          JSString "notSupported"]
                   (get_prop tokenBinding "status"))); [lia | reflexivity].
  - destruct (Z.leb_spec 0
                (indexOf [JSString "present"; JSString "supported";
                          JSString "notSupported"]
                   (get_prop tokenBinding "status"))); [reflexivity | lia].
Qed.

Lemma bind_check_flags {B} config requireUV flags (k : unit -> M W B) s :
  bind (check_flags config requireUV flags) k s =
  if flag_policy config requireUV flags then k tt s
  else (Threw (flags_rejection config flags), s).
Proof.
  unfold check_flags, flag_policy, flags_rejection.
  destruct config as [[[[ | | ] |]] |]; simpl;
    try reflexivity.
  - rewrite bind_throw_if. destruct (uv flags); reflexivity.
  - rewrite bind_bind, bind_throw_if.
    destruct (up flags); simpl; [| reflexivity].
    rewrite bind_throw_if. destruct requireUV, (uv flags); reflexivity.
Qed.

End CheckEquations.

(** ** Running the function symbolically *)

Lemma concat_two (a b : bytes) : isoUint8Array_concat [a; b] = a ++ b.
Proof. unfold isoUint8Array_concat; simpl. now rewrite app_nil_r. Qed.

(** A value with a truthy property is an object, hence truthy itself: the
    test of line 80 cannot fail once that of line 64 has passed. *)
Lemma truthy_of_prop (v : JSValue) (key : string) :
  truthy (get_prop v key) = true -> truthy v = true.
Proof. destruct v; simpl; congruence. Qed.

Ltac line_80_is_dead :=
  match goal with
  | H1 : truthy (get_prop ?v _) = true, H2 : truthy ?v = false |- _ =>
      apply truthy_of_prop in H1; congruence
  end.

(** One step of a run whose equation is [E]: the head of the computation is
    rewritten with its equation and the test it depends on is split. *)
Ltac run_step E :=
  lazymatch type of E with
  | bind (throw_if (negb ?c) _) _ _ = _ =>
      rewrite bind_throw_if in E; destruct c eqn:?; cbn [negb] in E
  | bind (throw_if ?c _) _ _ = _ =>
      rewrite bind_throw_if in E; destruct c eqn:?
  | bind (call _ ?r) _ _ = _ =>
      rewrite bind_call in E; destruct r eqn:?
  | bind (read_credential _) _ _ = _ =>
      rewrite bind_read_credential in E; cbn [credential world trace] in E
  | bind (emit _) _ _ = _ =>
      rewrite bind_emit in E; cbn [credential world trace] in E
  | bind (check_response_type ?t ?x) _ _ = _ =>
      rewrite bind_check_response_type in E;
      destruct (type_accepted t x) eqn:?
  | bind (check_challenge ?c ?x) _ ?s = _ =>
      destruct c eqn:?;
      [ rewrite bind_check_challenge_literal in E;
        match type of E with
        | (if ?t then _ else _) = _ => destruct t eqn:?
        end
      | rewrite bind_check_challenge_verifier in E; cbv zeta in E;
        match type of E with
        | match fst ?t with _ => _ end = _ =>
            destruct (fst t) as [[|] | |] eqn:?
        end ]
  | bind (check_origin ?o ?x) _ _ = _ =>
      rewrite bind_check_origin in E; destruct (origin_accepted o x) eqn:?
  | bind (check_tokenBinding ?x) _ _ = _ =>
      rewrite bind_check_tokenBinding in E;
      destruct (tokenBinding_accepted x) eqn:?
  | bind (check_flags ?c ?r ?f) _ _ = _ =>
      rewrite bind_check_flags in E; destruct (flag_policy c r f) eqn:?
  | bind (bind _ _) _ _ = _ => rewrite bind_bind in E
  | bind (ret _) _ _ = _ => rewrite bind_ret in E
  | bind (throw _) _ _ = _ => rewrite bind_throw in E
  | bind (match ?x with _ => _ end) _ _ = _ => destruct x eqn:?
  | ret _ _ = _ => unfold ret in E
  end.

(** The path conditions, unfolded to the tests of the code. *)
Ltac unfold_conditions H :=
  unfold passes_all_checks, reaches_counter_check, reaches_encoding_checks,
    reaches_origin_check, reaches_challenge_check, challenge_accepted,
    challenge_rejected, counter_regressed, effective_requireUserVerification,
    assertionResponse in H; cbv zeta in H;
  repeat match goal with
         | H' : _ /\ _ |- _ => destruct H'
         | H' : exists _, _ |- _ => destruct H'
         end.

(** The mode of the challenge check, once known, settles the path condition
    that depends on it. *)
Ltac use_challenge_mode :=
  repeat match goal with
         | He : expectedChallenge ?o = _, H : context [expectedChallenge ?o]
           |- _ => rewrite He in H; cbn beta iota in H
         end.

(** All the paths of the run whose equation is [E]. *)
Ltac run_cases E :=
  unfold verifyAuthenticationResponse in E; cbv zeta in E;
  repeat run_step E; try line_80_is_dead.

(** The paths of a run [E] that the path conditions in the context allow. *)
Ltac run_under_conditions E :=
  run_cases E; use_challenge_mode; try rewrite concat_two in *;
  try congruence.

(** ** When the call returns *)

Section Returns.

Context {W : Type} {helpers : Helpers}.

(** A result is only returned to a request that passes every check, and it
    is the record built from what was derived on the way. *)
Lemma returned_inv (options : Options W) s r s' :
  verifyAuthenticationResponse options s = (Returned r, s') ->
  exists d,
    passes_all_checks options s d /\
    verifySignature (d_signature d) (d_authDataBuffer d ++ d_clientDataHash d)
      (cred_publicKey (credential s)) = inr (verified r) /\
    r = result_record s d (verified r) /\
    s' = after_verification options s d.
Proof.
  intros E. run_cases E; try discriminate.
  all: rewrite concat_two in *.
  all: match goal with
       | Hc : decodeClientDataJSON _ = inr ?c,
         Hb : toBuffer (get_prop _ "authenticatorData") = inr ?b1,
         Hp : parseAuthenticatorData _ = inr ?p,
         Hm : matchExpectedRPID _ _ = inr ?rp,
         Hh : toHash _ = inr ?h,
         Hs : toBuffer (get_prop _ "signature") = inr ?sg,
         Hf : parseBackupFlags _ = inr ?bk |- _ =>
           exists {| d_clientData := c; d_authDataBuffer := b1; d_parsed := p;
                     d_matchedRPID := rp; d_clientDataHash := h;
                     d_signature := sg; d_backup := bk |}
       end.
  all: inversion E; subst; clear E.
  all: unfold passes_all_checks, reaches_counter_check,
         reaches_encoding_checks, reaches_origin_check,
         reaches_challenge_check, challenge_accepted, after_verification,
         after_challenge, result_record, counter_regressed,
         effective_requireUserVerification, assertionResponse;
       cbn [d_clientData d_authDataBuffer d_parsed d_matchedRPID
            d_clientDataHash d_signature d_backup verified
            authenticationInfo credential world trace].
  all: match goal with H : expectedChallenge _ = _ |- _ => rewrite H end.
  all: repeat split; eauto.
Qed.

(** From the counter check on, the outcome is decided by the counters, by
    [parseBackupFlags] and by [verifySignature]. *)
Lemma run_from_counter_check (options : Options W) s d :
  reaches_counter_check options s d ->
  verifyAuthenticationResponse options s =
  let observed := counter (d_parsed d) in
  let stored := cred_counter (credential s) in
  let s1 := after_challenge options (cd_challenge (d_clientData d)) s in
  if counter_regressed observed stored
  then (Threw (CounterRegression observed stored), s1)
  else
    match parseBackupFlags (flags (d_parsed d)) with
    | inl e => (Threw (HelperThrew AtParseBackupFlags e), s1)
    | inr backup =>
        let d' := {| d_clientData := d_clientData d;
                     d_authDataBuffer := d_authDataBuffer d;
                     d_parsed := d_parsed d;
                     d_matchedRPID := d_matchedRPID d;
                     d_clientDataHash := d_clientDataHash d;
                     d_signature := d_signature d;
                     d_backup := backup |} in
        match verifySignature (d_signature d)
                (d_authDataBuffer d ++ d_clientDataHash d)
                (cred_publicKey (credential s)) with
        | inl e => (Threw (HelperThrew AtVerifySignature e),
                    after_verification options s d')
        | inr b => (Returned (result_record s d' b),
                    after_verification options s d')
        end
    end.
Proof.
  intros Hreach. unfold_conditions Hreach.
  destruct (verifyAuthenticationResponse options s) as [o s''] eqn:E.
  run_under_conditions E.
  all: unfold after_verification, after_challenge, result_record,
         counter_regressed; cbv zeta;
       cbn [d_clientData d_authDataBuffer d_parsed d_matchedRPID
            d_clientDataHash d_signature d_backup];
       match goal with H : expectedChallenge _ = _ |- _ => rewrite H end;
       cbn [credential world trace].
  all: rewrite <- E; clear E.
  all: repeat match goal with
         | H : inr _ = inr _ |- _ => injection H as H; subst
         | H : JSString _ = JSString _ |- _ => injection H as H; subst
         | H : ?x = inr _, H' : ?x = inr _ |- _ =>
             rewrite H in H'; injection H' as H'; subst
         end.
  all: repeat match goal with
         | H : ?x = _ |- context [?x] => rewrite H
         end; reflexivity.
Qed.

(** A request that passes every check gets the verdict of
    [verifySignature] as its result. *)
Lemma returned_intro (options : Options W) s d b :
  passes_all_checks options s d ->
  verifySignature (d_signature d) (d_authDataBuffer d ++ d_clientDataHash d)
    (cred_publicKey (credential s)) = inr b ->
  verifyAuthenticationResponse options s =
    (Returned (result_record s d b), after_verification options s d).
Proof.
  intros (Hreach & Hcounter & Hbackup) Hsig.
  rewrite (run_from_counter_check options s d Hreach). cbv zeta.
  rewrite Hcounter, Hbackup, Hsig. destruct d; reflexivity.
Qed.

End Returns.

(** ** The frame of a run

    A run reads the store through the fields [id], [publicKey] and [counter]
    of the credential and, when the caller's verifier checks the challenge,
    through the world; it changes nothing of the credential and only appends
    to the trace.  This is proved once for the operations of the monad and
    carried through [bind]. *)

Section Frame.

Context {W : Type} {helpers : Helpers}.

Variable Rw : W -> W -> Prop.

Lemma framed_pure {A} (o : Outcome A) : framed Rw (fun s => (o, s)).
Proof.
  intros s s2 (_ & _ & _ & Hw). exists []. cbn.
  rewrite !app_nil_r. repeat split; auto.
Qed.

Lemma framed_ret {A} (a : A) : framed Rw (ret a).
Proof. apply framed_pure. Qed.

Lemma framed_throw {A} (e : VerifyError) : framed Rw (@throw W A e).
Proof. apply framed_pure. Qed.

Lemma framed_throw_if (c : bool) (e : VerifyError) : framed Rw (throw_if c e).
Proof. destruct c; apply framed_pure. Qed.

Lemma framed_call {A} (site : CallSite) (r : Exn + A) : framed Rw (call site r).
Proof. destruct r; apply framed_pure. Qed.

Lemma framed_emit (ev : Event) : framed Rw (emit ev).
Proof.
  intros s s2 (_ & _ & _ & Hw). exists [ev]. cbn. repeat split; auto.
Qed.

Lemma framed_read_id : framed Rw (read_credential cred_id).
Proof.
  intros s s2 (Hid & _ & _ & Hw). exists []. cbn.
  rewrite !app_nil_r, Hid. repeat split; auto.
Qed.

Lemma framed_read_publicKey : framed Rw (read_credential cred_publicKey).
Proof.
  intros s s2 (_ & Hpk & _ & Hw). exists []. cbn.
  rewrite !app_nil_r, Hpk. repeat split; auto.
Qed.

Lemma framed_read_counter : framed Rw (read_credential cred_counter).
Proof.
  intros s s2 (_ & _ & Hc & Hw). exists []. cbn.
  rewrite !app_nil_r, Hc. repeat split; auto.
Qed.

Lemma framed_bind {A B} (m : M W A) (k : A -> M W B) :
  framed Rw m -> (forall a, framed Rw (k a)) -> framed Rw (bind m k).
Proof.
  intros Hm Hk s s2 Hs.
  destruct (Hm s s2 Hs) as (evs & Ho & Hw & Hc & Hc2 & Ht & Ht2).
  destruct Hs as (Hid & Hpk & Hcn & _).
  unfold bind.
  destruct (m s) as [o s1], (m s2) as [o2 s1']. cbn in *. subst o2.
  destruct o as [a | e |].
  - destruct (Hk a s1 s1') as (evs' & Ho' & Hw' & Hc' & Hc2' & Ht' & Ht2').
    { unfold similar. rewrite Hc, Hc2. auto. }
    exists (evs ++ evs'). rewrite !app_assoc, <- Ht, <- Ht2.
    repeat split; congruence.
  - exists evs. cbn. repeat split; auto.
  - exists evs. cbn. repeat split; auto.
Qed.

Lemma framed_check_response_type expectedType type :
  framed Rw (check_response_type expectedType type).
Proof.
  unfold check_response_type.
  destruct expectedType as [[t | types] |];
    try destruct (negb (t =? EmptyString)%string); apply framed_throw_if.
Qed.

Lemma framed_check_origin expectedOrigin origin :
  framed Rw (check_origin expectedOrigin origin).
Proof.
  unfold check_origin. destruct expectedOrigin; apply framed_throw_if.
Qed.

Lemma framed_check_tokenBinding tokenBinding :
  framed Rw (check_tokenBinding tokenBinding).
Proof.
  unfold check_tokenBinding. destruct (truthy tokenBinding).
  - apply framed_bind; [| intros _]; apply framed_throw_if.
  - apply framed_ret.
Qed.

Lemma framed_check_flags config requireUV flags :
  framed Rw (check_flags config requireUV flags).
Proof.
  unfold check_flags. destruct config as [[[[| |] |]] |]; cbv zeta beta iota.
  - apply framed_throw_if.
  - apply framed_ret.
  - apply framed_ret.
  - apply framed_ret.
  - apply framed_bind; [| intros _]; apply framed_throw_if.
Qed.

Lemma framed_check_challenge_literal expected challenge :
  framed Rw (check_challenge (ChallengeLiteral expected) challenge).
Proof. apply framed_throw_if. Qed.

(** The function is framed as soon as its challenge check is. *)
Lemma framed_verifyAuthenticationResponse (options : Options W) :
  (forall challenge,
      framed Rw (check_challenge (expectedChallenge options) challenge)) ->
  framed Rw (verifyAuthenticationResponse options).
Proof.
  intros Hchallenge. unfold verifyAuthenticationResponse. cbv zeta.
  repeat first
    [ apply framed_bind; [| intro]
    | apply framed_throw_if
    | apply framed_call
    | apply framed_ret
    | apply framed_throw
    | apply framed_emit
    | apply framed_read_id
    | apply framed_read_publicKey
    | apply framed_read_counter
    | apply framed_check_response_type
    | apply framed_check_origin
    | apply framed_check_tokenBinding
    | apply framed_check_flags
    | apply Hchallenge
    | match goal with
      | |- framed _ (match ?x with _ => _ end) => destruct x
      end ].
Qed.

End Frame.

Section FrameOfTheVerifier.

Context {W : Type} {helpers : Helpers}.

(** From equal worlds the caller's verifier answers the same. *)
Lemma framed_check_challenge (expectedChallenge : ExpectedChallenge W)
    challenge :
  framed eq (check_challenge expectedChallenge challenge).
Proof.
  destruct expectedChallenge as [expected | f].
  - apply framed_check_challenge_literal.
  - unfold check_challenge. apply framed_bind.
    + intros s s2 (_ & _ & _ & Hw). exists [EvChallengeVerifier challenge].
      unfold await_verifier. rewrite <- Hw.
      destruct (fst (f challenge (world s))); cbn; repeat split; auto.
    + intro. apply framed_throw_if.
Qed.

Lemma framed_eq (options : Options W) :
  framed eq (verifyAuthenticationResponse options).
Proof.
  apply framed_verifyAuthenticationResponse. intro.
  apply framed_check_challenge.
Qed.

End FrameOfTheVerifier.

(** ** The verdict and the counter *)

Lemma counter_regressed_spec (observed stored : Z) :
  counter_regressed observed stored = true <->
  (observed > 0 \/ stored > 0) /\ observed <= stored.
Proof.
  unfold counter_regressed.
  rewrite andb_true_iff, orb_true_iff, Z.leb_le.
  rewrite <- !Zgt_is_gt_bool. tauto.
Qed.

Section Verdict.

Context {W : Type} {helpers : Helpers}.

(** C1.  When the call returns a result, its [verified] field is what
    [verifySignature] answers for the decoded signature bytes, the data
    [authenticatorData || toHash(clientDataJSON bytes)] (the decoded
    authenticator data followed by the digest of the decoded client data,
    which [toHash] computes with SHA-256) and the public key stored in the
    caller's credential; the run submits exactly that triple for
    verification, once, as its last external call. *)
Theorem verified_is_signature_over_authData_and_clientDataHash
    (options : Options W) s r s' :
  verifyAuthenticationResponse options s = (Returned r, s') ->
  exists clientDataJSON authDataBuffer clientDataBuffer clientDataHash
         signature,
    get_prop (assertionResponse options) "clientDataJSON"
      = JSString clientDataJSON /\
    toBuffer (get_prop (assertionResponse options) "authenticatorData")
      = inr authDataBuffer /\
    toBuffer (JSString clientDataJSON) = inr clientDataBuffer /\
    toHash clientDataBuffer = inr clientDataHash /\
    toBuffer (get_prop (assertionResponse options) "signature")
      = inr signature /\
    verifySignature signature (authDataBuffer ++ clientDataHash)
      (cred_publicKey (credential s)) = inr (verified r) /\
    exists earlier,
      trace s' = trace s ++ earlier
                 ++ [EvVerifySignature signature
                       (authDataBuffer ++ clientDataHash)
                       (cred_publicKey (credential s))] /\
      signature_verifications earlier = 0%nat.
Proof.
  intros E. destruct (returned_inv options s r s' E)
    as (d & Hpass & Hsig & _ & Hs').
  unfold_conditions Hpass.
  match goal with
  | Hj : get_prop _ "clientDataJSON" = JSString ?b64,
    Hb : toBuffer (JSString ?b64) = inr ?buffer |- _ =>
      exists b64, (d_authDataBuffer d), buffer, (d_clientDataHash d),
        (d_signature d)
  end.
  repeat (split; [assumption |]).
  subst s'. unfold after_verification, after_challenge. cbv zeta.
  destruct (expectedChallenge options); cbn [trace].
  - exists []. split; reflexivity.
  - exists [EvChallengeVerifier (cd_challenge (d_clientData d))].
    rewrite <- app_assoc. split; reflexivity.
Qed.

(** C2.  Take a request that is accepted against some stored counter, so
    that everything but the counters matches.  Against any stored counter the
    call throws the counter error if and only if
    [(observed > 0 \/ stored > 0) /\ observed <= stored], where [observed] is
    the counter parsed from the authenticator data; the error names these
    two counters; with both counters zero the call returns; and whenever it
    returns, [newCounter] is the observed counter. *)
Theorem counter_regression_iff (options : Options W) s stored0 r0 s0 :
  verifyAuthenticationResponse options (with_counter s stored0)
    = (Returned r0, s0) ->
  exists parsed,
    observed_authData options = Some parsed /\
    forall stored,
      let observed := counter parsed in
      let outcome :=
        fst (verifyAuthenticationResponse options (with_counter s stored)) in
      (outcome = Threw (CounterRegression observed stored) <->
       (observed > 0 \/ stored > 0) /\ observed <= stored) /\
      (forall c st, outcome = Threw (CounterRegression c st) ->
                    c = observed /\ st = stored) /\
      (observed = 0 -> stored = 0 -> exists r, outcome = Returned r) /\
      (forall r, outcome = Returned r ->
                 newCounter (authenticationInfo r) = observed) /\
      (~ ((observed > 0 \/ stored > 0) /\ observed <= stored) ->
       exists r, outcome = Returned r).
Proof.
  intros E0.
  destruct (returned_inv _ _ _ _ E0) as (d & (Hreach & _ & Hbackup) & Hsig & _).
  exists (d_parsed d). split.
  { unfold_conditions Hreach. unfold observed_authData, assertionResponse.
    repeat match goal with
           | H : ?x = inr _ |- context [?x] => rewrite H
           end. reflexivity. }
  intros stored observed outcome. subst observed outcome.
  rewrite (run_from_counter_check options (with_counter s stored) d Hreach).
  cbv zeta. cbn [with_counter credential cred_counter cred_publicKey] in *.
  rewrite Hbackup, Hsig.
  pose proof (counter_regressed_spec (counter (d_parsed d)) stored) as Hspec.
  destruct (counter_regressed (counter (d_parsed d)) stored); cbn [fst].
  - assert (Hc : (counter (d_parsed d) > 0 \/ stored > 0)
                 /\ counter (d_parsed d) <= stored) by now apply Hspec.
    repeat split; try tauto; try congruence; try lia.
  - assert (Hc : ~ ((counter (d_parsed d) > 0 \/ stored > 0)
                    /\ counter (d_parsed d) <= stored)).
    { intros Hc. apply Hspec in Hc. discriminate. }
    repeat split; try discriminate; try tauto; eauto.
    intros r [= <-]. reflexivity.
Qed.

(** C3.  When a request passes every structural and policy check and
    [verifySignature] answers [false] for its signature, the call does not
    throw: it returns a record with [verified = false] and all of
    [authenticationInfo] filled in from the request and the credential. *)
Theorem invalid_signature_is_reported_not_thrown (options : Options W) s d :
  passes_all_checks options s d ->
  verifySignature (d_signature d) (d_authDataBuffer d ++ d_clientDataHash d)
    (cred_publicKey (credential s)) = inr false ->
  fst (verifyAuthenticationResponse options s) =
    Returned
      {| verified := false;
         authenticationInfo :=
           {| newCounter := counter (d_parsed d);
              credentialID := cred_id (credential s);
              userVerified := uv (flags (d_parsed d));
              credentialDeviceType := fst (d_backup d);
              credentialBackedUp := snd (d_backup d);
              authenticatorExtensionResults := extensionsData (d_parsed d);
              origin := cd_origin (d_clientData d);
              rpID := d_matchedRPID d |} |}.
Proof.
  intros Hpass Hsig. now rewrite (returned_intro options s d false Hpass Hsig).
Qed.

End Verdict.

(** ** The external calls of a run *)

(** The errors of the token-binding and flag checks, case by case. *)
Ltac settle_rejections :=
  unfold flags_rejection, tokenBinding_rejection;
  repeat match goal with
         | |- context [match advancedFIDOConfig ?o with _ => _ end] =>
             destruct (advancedFIDOConfig o)
         | |- context [if up ?f then _ else _] => destruct (up f)
         | |- context [if (typeof ?t =? "object")%string then _ else _] =>
             destruct (typeof t =? "object")%string
         end.

Section ExternalCalls.

Context {W : Type} {helpers : Helpers}.

(** The signature is submitted for verification by the runs that get to
    line 243 and by no other; the caller's verifier is called at most once,
    and not at all when the challenge is a literal. *)
Lemma external_calls (options : Options W) s o s' :
  verifyAuthenticationResponse options s = (o, s') ->
  exists evs,
    trace s' = trace s ++ evs /\
    signature_verifications evs
      = (if reached_verification o then 1 else 0)%nat /\
    (verifier_calls evs <= 1)%nat /\
    (forall expected, expectedChallenge options = ChallengeLiteral expected ->
                      verifier_calls evs = 0%nat).
Proof.
  intros E. run_cases E.
  all: injection E as <- <-; cbn [trace]; rewrite <- ?app_assoc.
  all: first [ exists []; rewrite !app_nil_r; split; [reflexivity |]
             | eexists; split; [reflexivity |] ].
  all: cbn; settle_rejections; cbn; repeat split; auto; try discriminate.
Qed.

(** A flag error comes from the flag policy rejecting the parsed flags. *)
Lemma flag_rejection_inv (options : Options W) s e s' :
  verifyAuthenticationResponse options s = (Threw e, s') ->
  e = UserNotPresent \/ e = UserVerificationRequired ->
  exists parsed,
    observed_authData options = Some parsed /\
    flag_policy (advancedFIDOConfig options)
      (effective_requireUserVerification options) (flags parsed) = false /\
    e = flags_rejection (advancedFIDOConfig options) (flags parsed).
Proof.
  intros E He. run_cases E; try discriminate E.
  all: injection E as <- <-.
  all: try (destruct He; discriminate).
  all: try (unfold tokenBinding_rejection in He;
            match type of He with
            | context [if ?c then _ else _] => destruct c
            end; destruct He; discriminate).
  all: match goal with
       | Hp : parseAuthenticatorData _ = inr ?p |- _ => exists p
       end;
       unfold observed_authData, assertionResponse,
         effective_requireUserVerification;
       repeat match goal with
              | H : ?x = inr _ |- context [?x] => rewrite H
              end; auto.
Qed.

End ExternalCalls.

(** ** Policy *)

Section Policy.

Context {W : Type} {helpers : Helpers}.

(** C4.  The flag check follows one of two policies, chosen by whether
    [advancedFIDOConfig] is supplied.  Without it a response is accepted
    exactly when [up] is set and, if [requireUserVerification] is set ([true]
    when omitted), [uv] is set.  With it a response is accepted exactly when
    [uv] is set or the requirement is not ["required"]; [up] and
    [requireUserVerification] play no role.  For the whole call: a result is
    only returned for flags the policy of the mode accepts, a flag error is
    only thrown for flags it rejects, and with a requirement other than
    ["required"] (so with ["discouraged"]) no flag error is ever thrown. *)
Theorem flag_policy_modes :
  (forall requireUV flags (st : Store W),
      fst (check_flags None requireUV flags st) = Returned tt <->
      up flags = true /\ (requireUV = true -> uv flags = true)) /\
  (forall config requireUV flags (st : Store W),
      fst (check_flags (Some config) requireUV flags st) = Returned tt <->
      (userVerification config = Some UVRequired -> uv flags = true)) /\
  (forall (options : Options W) s r s',
      verifyAuthenticationResponse options s = (Returned r, s') ->
      exists parsed,
        observed_authData options = Some parsed /\
        match advancedFIDOConfig options with
        | None =>
            up (flags parsed) = true /\
            (requireUserVerification options <> Some false ->
             uv (flags parsed) = true)
        | Some config =>
            userVerification config = Some UVRequired ->
            uv (flags parsed) = true
        end) /\
  (forall (options : Options W) s e s',
      verifyAuthenticationResponse options s = (Threw e, s') ->
      e = UserNotPresent \/ e = UserVerificationRequired ->
      exists parsed,
        observed_authData options = Some parsed /\
        match advancedFIDOConfig options with
        | None =>
            (e = UserNotPresent /\ up (flags parsed) = false) \/
            (e = UserVerificationRequired /\ up (flags parsed) = true /\
             requireUserVerification options <> Some false /\
             uv (flags parsed) = false)
        | Some config =>
            e = UserVerificationRequired /\
            userVerification config = Some UVRequired /\
            uv (flags parsed) = false
        end) /\
  (forall (options : Options W) s config,
      advancedFIDOConfig options = Some config ->
      userVerification config <> Some UVRequired ->
      fst (verifyAuthenticationResponse options s) <> Threw UserNotPresent /\
      fst (verifyAuthenticationResponse options s)
        <> Threw UserVerificationRequired).
Proof.
  assert (Hrejected :
    forall (options : Options W) s e s',
      verifyAuthenticationResponse options s = (Threw e, s') ->
      e = UserNotPresent \/ e = UserVerificationRequired ->
      exists parsed,
        observed_authData options = Some parsed /\
        match advancedFIDOConfig options with
        | None =>
            (e = UserNotPresent /\ up (flags parsed) = false) \/
            (e = UserVerificationRequired /\ up (flags parsed) = true /\
             requireUserVerification options <> Some false /\
             uv (flags parsed) = false)
        | Some config =>
            e = UserVerificationRequired /\
            userVerification config = Some UVRequired /\
            uv (flags parsed) = false
        end).
  { intros options s e s' E He.
    destruct (flag_rejection_inv options s e s' E He)
      as (parsed & Hobs & Hpol & ->).
    exists parsed. split; [assumption |].
    unfold flag_policy, flags_rejection, effective_requireUserVerification
      in *.
    destruct (advancedFIDOConfig options) as [[[[| |] |]] |];
      cbn [userVerification] in *; try discriminate.
    - auto.
    - destruct (requireUserVerification options) as [[|] |],
        (up (flags parsed)), (uv (flags parsed));
        cbn in *; try discriminate; intuition congruence. }
  split; [| split; [| split; [| split]]].
  - intros requireUV flags st. unfold check_flags.
    rewrite bind_throw_if.
    destruct (up flags), requireUV, (uv flags); cbn;
      intuition congruence.
  - intros [[[| |] |]] requireUV flags st; unfold check_flags;
      cbn [userVerification]; cbv zeta; destruct (uv flags); cbn;
      intuition congruence.
  - intros options s r s' E.
    destruct (returned_inv options s r s' E) as (d & (Hreach & _) & _).
    unfold_conditions Hreach. exists (d_parsed d). split.
    + unfold observed_authData, assertionResponse.
      repeat match goal with
             | H : ?x = inr _ |- context [?x] => rewrite H
             end. reflexivity.
    + match goal with H : flag_policy _ _ _ = true |- _ => revert H end.
      unfold flag_policy.
      destruct (advancedFIDOConfig options) as [[[[| |] |]] |];
        cbn [userVerification]; try discriminate; try tauto.
      destruct (requireUserVerification options) as [[|] |],
        (up (flags (d_parsed d))), (uv (flags (d_parsed d)));
        cbn; intuition congruence.
  - exact Hrejected.
  - intros options s config Hconfig Hnot.
    destruct (verifyAuthenticationResponse options s) as [o s'] eqn:E.
    cbn [fst]. split; intros ->.
    + destruct (Hrejected options s _ s' E (or_introl eq_refl))
        as (parsed & _ & H).
      rewrite Hconfig in H. destruct H as (H & _). discriminate.
    + destruct (Hrejected options s _ s' E (or_intror eq_refl))
        as (parsed & _ & H).
      rewrite Hconfig in H. destruct H as (_ & H & _). contradiction.
Qed.

End Policy.

(** ** The challenge and the origin *)

Section ChallengeAndOrigin.

Context {W : Type} {helpers : Helpers}.

(** What a run that reaches the challenge check yields when the challenge
    does not pass. *)
Lemma run_at_challenge_check (options : Options W) s cd :
  reaches_challenge_check options cd ->
  let challenge := cd_challenge cd in
  match expectedChallenge options with
  | ChallengeLiteral expected =>
      (challenge =? expected)%string = false ->
      verifyAuthenticationResponse options s
        = (Threw (UnexpectedChallenge challenge expected), s)
  | ChallengeVerifier f =>
      let s1 := after_challenge options challenge s in
      match fst (f challenge (world s)) with
      | Resolves true => True
      | Resolves false =>
          verifyAuthenticationResponse options s
            = (Threw (VerifierReturnedFalse challenge), s1)
      | Rejects reason =>
          verifyAuthenticationResponse options s
            = (Threw (VerifierRejected reason), s1)
      | NeverSettles =>
          verifyAuthenticationResponse options s = (Pending, s1)
      end
  end.
Proof.
  intros Hreach challenge. subst challenge. unfold_conditions Hreach.
  unfold after_challenge.
  destruct (verifyAuthenticationResponse options s) as [o s'] eqn:E.
  destruct (expectedChallenge options) as [expected | f] eqn:Hmode.
  - intros Hneq. run_cases E; try congruence.
  - cbv zeta.
    destruct (fst (f (cd_challenge cd) (world s))) as [[|] | |] eqn:Hf;
      [exact I | | |]; run_cases E; try congruence.
    all: repeat match goal with
           | H : inr _ = inr _ |- _ => injection H as H; subst
           | H : JSString _ = JSString _ |- _ => injection H as H; subst
           | H : ?x = inr _, H' : ?x = inr _ |- _ =>
               rewrite H in H'; injection H' as H'; subst
           | H : ChallengeVerifier _ = ChallengeVerifier _ |- _ =>
               injection H as H; subst
           end; congruence.
Qed.

(** What a run that reaches the origin check yields when the origin is not
    an expected one. *)
Lemma run_at_origin_check (options : Options W) s cd :
  reaches_origin_check options s cd ->
  origin_accepted (expectedOrigin options) (cd_origin cd) = false ->
  verifyAuthenticationResponse options s
    = (Threw (UnexpectedOrigin (cd_origin cd) (expectedOrigin options)),
       after_challenge options (cd_challenge cd) s).
Proof.
  intros Hreach Horigin. unfold_conditions Hreach. unfold after_challenge.
  destruct (verifyAuthenticationResponse options s) as [o s'] eqn:E.
  run_under_conditions E.
  all: repeat match goal with
         | H : inr _ = inr _ |- _ => injection H as H; subst
         | H : JSString _ = JSString _ |- _ => injection H as H; subst
         | H : ?x = inr _, H' : ?x = inr _ |- _ =>
             rewrite H in H'; injection H' as H'; subst
         end; try congruence.
  all: match goal with H : expectedChallenge _ = _ |- _ => rewrite H end;
    congruence.
Qed.

(** Only a request that passes every check gets to line 243. *)
Lemma reached_verification_inv (options : Options W) s o s' :
  verifyAuthenticationResponse options s = (o, s') ->
  reached_verification o = true ->
  exists d, passes_all_checks options s d.
Proof.
  intros E Hreached. run_cases E.
  all: injection E as <- <-.
  all: try discriminate Hreached.
  all: try (revert Hreached; cbn; settle_rejections; discriminate).
  all: rewrite concat_two in *.
  all: match goal with
       | Hc : decodeClientDataJSON _ = inr ?c,
         Hb : toBuffer (get_prop _ "authenticatorData") = inr ?b1,
         Hp : parseAuthenticatorData _ = inr ?p,
         Hm : matchExpectedRPID _ _ = inr ?rp,
         Hh : toHash _ = inr ?h,
         Hs : toBuffer (get_prop _ "signature") = inr ?sg,
         Hf : parseBackupFlags _ = inr ?bk |- _ =>
           exists {| d_clientData := c; d_authDataBuffer := b1; d_parsed := p;
                     d_matchedRPID := rp; d_clientDataHash := h;
                     d_signature := sg; d_backup := bk |}
       end.
  all: unfold passes_all_checks, reaches_counter_check,
         reaches_encoding_checks, reaches_origin_check,
         reaches_challenge_check, challenge_accepted, counter_regressed,
         effective_requireUserVerification, assertionResponse;
       cbn [d_clientData d_authDataBuffer d_parsed d_matchedRPID
            d_clientDataHash d_signature d_backup].
  all: match goal with H : expectedChallenge _ = _ |- _ => rewrite H end.
  all: repeat split; eauto.
Qed.

(** C5, as the code has it.  A rejected origin or challenge ends the call
    before the signature is looked at.  When the client data of the request
    decodes and its origin is not an expected one, or its challenge is
    rejected (it differs from the literal, or the caller's verifier answers
    [false]), the call returns no result and never submits the signature for
    verification, whichever check stops it; the error thrown is the origin
    error when every check that comes before the origin check passes (the
    tests on [id], [rawId], [type] and [clientDataJSON], the type check and
    the challenge check), and the challenge error when every check that comes
    before the challenge check passes. *)
Theorem policy_rejections_precede_signature (options : Options W) s :
  let run := verifyAuthenticationResponse options s in
  (forall cd,
      reaches_origin_check options s cd ->
      origin_accepted (expectedOrigin options) (cd_origin cd) = false ->
      fst run = Threw (UnexpectedOrigin (cd_origin cd) (expectedOrigin options))
      /\ exists evs, trace (snd run) = trace s ++ evs
                     /\ signature_verifications evs = 0%nat) /\
  (forall cd,
      reaches_challenge_check options cd ->
      challenge_rejected options (world s) (cd_challenge cd) ->
      fst run =
        Threw (match expectedChallenge options with
               | ChallengeLiteral expected =>
                   UnexpectedChallenge (cd_challenge cd) expected
               | ChallengeVerifier _ => VerifierReturnedFalse (cd_challenge cd)
               end)
      /\ exists evs, trace (snd run) = trace s ++ evs
                     /\ signature_verifications evs = 0%nat) /\
  (forall b64 cd,
      get_prop (assertionResponse options) "clientDataJSON" = JSString b64 ->
      decodeClientDataJSON b64 = inr cd ->
      origin_accepted (expectedOrigin options) (cd_origin cd) = false
      \/ challenge_rejected options (world s) (cd_challenge cd) ->
      (forall r, fst run <> Returned r)
      /\ exists evs, trace (snd run) = trace s ++ evs
                     /\ signature_verifications evs = 0%nat).
Proof.
  intros run. subst run.
  destruct (verifyAuthenticationResponse options s) as [o s'] eqn:E.
  destruct (external_calls options s o s' E) as (evs & Htrace & Hsig & _).
  cbn [fst snd].
  assert (Hquiet : reached_verification o = false ->
                   exists evs, trace s' = trace s ++ evs
                               /\ signature_verifications evs = 0%nat).
  { intros Hr. rewrite Hr in Hsig. eauto. }
  split; [| split].
  - intros cd Hreach Horigin.
    rewrite (run_at_origin_check options s cd Hreach Horigin) in E.
    injection E as <- <-. auto.
  - intros cd Hreach Hrejected.
    pose proof (run_at_challenge_check options s cd Hreach) as Hrun.
    unfold challenge_rejected in Hrejected. cbv zeta in Hrun.
    destruct (expectedChallenge options) as [expected | f].
    + rewrite (Hrun Hrejected) in E. injection E as <- <-. auto.
    + rewrite Hrejected in Hrun. rewrite Hrun in E.
      injection E as <- <-. auto.
  - intros b64 cd Hjson Hdecode Hbad.
    assert (Hr : reached_verification o = false).
    { destruct (reached_verification o) eqn:Hr; [exfalso | reflexivity].
      destruct (reached_verification_inv options s o s' E Hr) as (d & Hpass).
      unfold_conditions Hpass. unfold assertionResponse in Hjson.
      assert (Hcd : d_clientData d = cd) by congruence.
      rewrite Hcd in *.
      unfold challenge_rejected in Hbad.
      destruct (expectedChallenge options); destruct Hbad; congruence. }
    split; [| auto].
    intros r ->. discriminate.
Qed.

(** Where the caller's verifier stands in a run: either the run ends before
    the challenge check and nothing has happened, or the verifier is the
    first external call, made once with the challenge of the client data. *)
Lemma verifier_call_inv (options : Options W) s f o s' :
  expectedChallenge options = ChallengeVerifier f ->
  verifyAuthenticationResponse options s = (o, s') ->
  (s' = s /\ is_challenge_failure o = false
   /\ ~ exists cd, reaches_challenge_check options cd)
  \/ (exists cd later,
        reaches_challenge_check options cd /\
        trace s' = trace s ++ EvChallengeVerifier (cd_challenge cd) :: later /\
        verifier_calls later = 0%nat /\
        world s' = snd (f (cd_challenge cd) (world s)) /\
        (fst (f (cd_challenge cd) (world s)) = Resolves true ->
         is_challenge_failure o = false) /\
        (fst (f (cd_challenge cd) (world s)) <> Resolves true ->
         later = [])).
Proof.
  intros Hmode E. run_cases E; try congruence.
  all: injection E as <- <-.
  all: try (left; split; [reflexivity |]; split; [reflexivity |];
            intros (cd & Hreach); unfold_conditions Hreach;
            try line_80_is_dead; congruence).
  all: right;
    match goal with
    | Hc : decodeClientDataJSON _ = inr ?c |- _ => exists c
    end;
    cbn [trace world]; rewrite <- ?app_assoc; eexists;
    (split;
     [ unfold reaches_challenge_check, assertionResponse;
       repeat split; eauto |]);
    (split; [reflexivity |]).
  all: match goal with
       | H : ChallengeVerifier _ = ChallengeVerifier _ |- _ =>
           injection H as <-
       end.
  all: cbn; settle_rejections; cbn; repeat split; auto; congruence.
Qed.

Lemma reaches_challenge_check_unique (options : Options W) cd cd' :
  reaches_challenge_check options cd ->
  reaches_challenge_check options cd' ->
  cd = cd'.
Proof.
  intros H H'. unfold_conditions H. unfold_conditions H'. congruence.
Qed.

(** C7, as the code has it.  With a function as [expectedChallenge], a call
    invokes it at most once: not at all when a check that comes before the
    challenge check fails, and exactly once, as its first external call and
    with the challenge of the client data, when the challenge check is
    reached.  The call then goes on only if the promise resolves to [true]:
    it fails with the verifier's own error when it resolves to [false], with
    the rejection when it rejects, and stays pending, having done nothing
    else, when it never settles. *)
Theorem verifier_awaited_once_when_reached (options : Options W) s f :
  expectedChallenge options = ChallengeVerifier f ->
  let run := verifyAuthenticationResponse options s in
  exists evs,
    trace (snd run) = trace s ++ evs /\
    (verifier_calls evs <= 1)%nat /\
    (verifier_calls evs = 1%nat <->
     exists cd, reaches_challenge_check options cd) /\
    forall cd,
      reaches_challenge_check options cd ->
      let challenge := cd_challenge cd in
      (exists later, evs = EvChallengeVerifier challenge :: later
                     /\ verifier_calls later = 0%nat) /\
      world (snd run) = snd (f challenge (world s)) /\
      match fst (f challenge (world s)) with
      | Resolves true => is_challenge_failure (fst run) = false
      | Resolves false =>
          fst run = Threw (VerifierReturnedFalse challenge)
          /\ evs = [EvChallengeVerifier challenge]
      | Rejects reason =>
          fst run = Threw (VerifierRejected reason)
          /\ evs = [EvChallengeVerifier challenge]
      | NeverSettles =>
          fst run = Pending /\ evs = [EvChallengeVerifier challenge]
      end.
Proof.
  intros Hmode run. subst run.
  destruct (verifyAuthenticationResponse options s) as [o s'] eqn:E.
  cbn [fst snd].
  destruct (verifier_call_inv options s f o s' Hmode E)
    as [(-> & Hfail & Hnone)
       | (cd & later & Hreach & Htrace & Hlater & Hworld & Htrue & Hother)].
  - exists []. rewrite app_nil_r. split; [reflexivity |].
    split; [cbn; lia |]. split.
    + cbn. split; [discriminate | intros H; contradiction].
    + intros cd Hreach. exfalso. eauto.
  - exists (EvChallengeVerifier (cd_challenge cd) :: later).
    split; [assumption |].
    assert (Hone : verifier_calls
                     (EvChallengeVerifier (cd_challenge cd) :: later)
                   = 1%nat).
    { unfold verifier_calls in *. cbn. now rewrite Hlater. }
    split; [lia |]. split; [split; eauto |].
    intros cd' Hreach'.
    rewrite <- (reaches_challenge_check_unique options cd cd' Hreach Hreach').
    cbv zeta. split; [eauto |]. split; [assumption |].
    pose proof (run_at_challenge_check options s cd Hreach) as Hrun.
    cbv zeta in Hrun. rewrite Hmode in Hrun.
    destruct (fst (f (cd_challenge cd) (world s))) as [[|] | |] eqn:Hf.
    + auto.
    + rewrite Hrun in E. injection E as <- _.
      rewrite Hother by discriminate. auto.
    + rewrite Hrun in E. injection E as <- _.
      rewrite Hother by discriminate. auto.
    + rewrite Hrun in E. injection E as <- _.
      rewrite Hother by discriminate. auto.
Qed.

End ChallengeAndOrigin.

(** ** Structural validation *)

Lemma nullish_has_no_truthy_prop (v : JSValue) (key : string) :
  truthy (get_prop v key) = true -> is_nullish v = false.
Proof. destruct v; simpl; congruence. Qed.

(** The facts of a path contradict the assumption [H]. *)
Ltac path_excludes H :=
  unfold_conditions H; use_challenge_mode;
  try match goal with
      | Hn : is_nullish ?v = true, Ht : truthy (get_prop ?v _) = true |- _ =>
          apply nullish_has_no_truthy_prop in Ht
      end;
  try match goal with
      | Ha : truthy ?u = true, Hb : (typeof ?u =? "string")%string = false,
        Hc : truthy ?u && negb _ = false |- _ =>
          rewrite Ha, Hb in Hc; discriminate Hc
      end;
  try match goal with
      | Hs : (typeof (JSString _) =? "string")%string = false |- _ =>
          discriminate Hs
      end;
  try line_80_is_dead; congruence.

Section StructuralValidation.

Context {W : Type} {helpers : Helpers}.

(** C6, as the code has it.  Structural validation fails fast, in the order
    of the source, each error being thrown exactly when its own test fails
    and every earlier check has passed: the missing-ID error when [id] is
    falsy (absent, [null], or the empty string); the ID-mismatch error when
    [id] is truthy and differs from [rawId]; the credential-type error when
    moreover [type] is not ["public-key"]; the missing-field error when
    moreover [response.clientDataJSON] is not a string (the test of line 80
    can never fail); and, for a request that reaches line 139, the encoding
    errors when [isBase64URL] rejects [authenticatorData], when it accepts it
    and rejects [signature], and when it accepts both and [userHandle] is
    truthy and not a string.  A run that ends in one of these errors returns
    nothing and never submits the signature for verification. *)
Theorem structural_validation_fail_fast (options : Options W) s :
  let outcome := fst (verifyAuthenticationResponse options s) in
  let id := get_prop (response options) "id" in
  let rawId := get_prop (response options) "rawId" in
  let type := get_prop (response options) "type" in
  let clientDataJSON := get_prop (assertionResponse options) "clientDataJSON" in
  let authenticatorData :=
    get_prop (assertionResponse options) "authenticatorData" in
  let signature := get_prop (assertionResponse options) "signature" in
  let userHandle := get_prop (assertionResponse options) "userHandle" in
  (outcome = Threw MissingCredentialID <->
   is_nullish (response options) = false /\ truthy id = false) /\
  (outcome = Threw CredentialIDNotBase64URL <->
   truthy id = true /\ strict_eq id rawId = false) /\
  (outcome = Threw (UnexpectedCredentialType type) <->
   truthy id = true /\ strict_eq id rawId = true /\
   strict_eq type (JSString "public-key") = false) /\
  outcome <> Threw CredentialMissingResponse /\
  (outcome = Threw ClientDataJSONNotString <->
   truthy id = true /\ strict_eq id rawId = true /\
   strict_eq type (JSString "public-key") = true /\
   (typeof clientDataJSON =? "string")%string = false) /\
  (outcome = Threw AuthenticatorDataNotBase64URL <->
   (exists cd, reaches_encoding_checks options s cd) /\
   isBase64URL authenticatorData = inr false) /\
  (outcome = Threw SignatureNotBase64URL <->
   (exists cd, reaches_encoding_checks options s cd) /\
   isBase64URL authenticatorData = inr true /\
   isBase64URL signature = inr false) /\
  (outcome = Threw UserHandleNotString <->
   (exists cd, reaches_encoding_checks options s cd) /\
   isBase64URL authenticatorData = inr true /\
   isBase64URL signature = inr true /\
   truthy userHandle = true /\
   (typeof userHandle =? "string")%string = false) /\
  (forall e, outcome = Threw e -> is_structural_error e = true ->
     exists evs,
       trace (snd (verifyAuthenticationResponse options s)) = trace s ++ evs
       /\ signature_verifications evs = 0%nat).
Proof.
  cbv zeta.
  destruct (verifyAuthenticationResponse options s) as [o s'] eqn:E.
  cbn [fst snd].
  assert (Hquiet : forall e, o = Threw e -> is_structural_error e = true ->
            exists evs, trace s' = trace s ++ evs
                        /\ signature_verifications evs = 0%nat).
  { intros e -> He.
    destruct (external_calls options s _ s' E) as (evs & Ht & Hsig & _).
    exists evs. split; [assumption |]. rewrite Hsig.
    destruct e as [| | | | | | | | | | | | | | | | | | | site msg];
      try reflexivity; discriminate. }
  unfold assertionResponse in *.
  run_cases E; injection E as <- <-.
  all: repeat match goal with |- _ /\ _ => split end;
    try exact Hquiet; clear Hquiet.
  all: try (intros H; revert H; settle_rejections; discriminate).
  all: split; intros H.
  all: try discriminate H.
  all: try (revert H; settle_rejections; discriminate).
  all: try reflexivity.
  all: try (exfalso; path_excludes H).
  all: repeat match goal with |- _ /\ _ => split end; auto.
  all: try match goal with
           | Hu : truthy ?u && negb _ = true |- _ =>
               apply andb_true_iff in Hu; destruct Hu as (Hu & Hu');
               apply negb_true_iff in Hu'; assumption
           end.
  all: try match goal with
           | Hc : decodeClientDataJSON _ = inr ?c |- exists _, _ =>
               exists c;
               unfold reaches_encoding_checks, reaches_origin_check,
                 reaches_challenge_check, challenge_accepted,
                 assertionResponse;
               match goal with
               | Hm : expectedChallenge _ = _ |- _ => rewrite Hm
               end;
               repeat split; eauto
           end.
Qed.

End StructuralValidation.

(** ** The credential and the world *)

Section CredentialAndWorld.

Context {W : Type} {helpers : Helpers}.

Lemma similar_eq_refl (s : Store W) : similar eq s s.
Proof. repeat split. Qed.

(** C8.  A call leaves the caller's credential object as it found it,
    whether it returns, throws or stays pending; and of that object it reads
    only [id], [publicKey] and [counter]: from stores that agree on these
    three fields (and on the world the caller's verifier sees) the call has
    the same outcome, the new counter being in the result alone. *)
Theorem credential_is_only_read (options : Options W) s :
  credential (snd (verifyAuthenticationResponse options s)) = credential s /\
  forall s2,
    cred_id (credential s2) = cred_id (credential s) ->
    cred_publicKey (credential s2) = cred_publicKey (credential s) ->
    cred_counter (credential s2) = cred_counter (credential s) ->
    world s2 = world s ->
    fst (verifyAuthenticationResponse options s2)
      = fst (verifyAuthenticationResponse options s) /\
    credential (snd (verifyAuthenticationResponse options s2))
      = credential s2.
Proof.
  split.
  - destruct (framed_eq options s s (similar_eq_refl s))
      as (evs & _ & _ & Hc & _). exact Hc.
  - intros s2 Hid Hpk Hcounter Hworld.
    destruct (framed_eq options s s2) as (evs & Ho & _ & _ & Hc2 & _).
    { repeat split; auto. }
    auto.
Qed.

(** The ID sent in the response plays no role beyond being non-empty and
    equal to [rawId]. *)
Lemma response_id_is_not_compared (options : Options W) s i1 i2 :
  i1 <> EmptyString -> i2 <> EmptyString ->
  verifyAuthenticationResponse (with_response_id options i1) s
    = verifyAuthenticationResponse (with_response_id options i2) s.
Proof.
  intros H1 H2. apply String.eqb_neq in H1, H2.
  unfold verifyAuthenticationResponse, with_response_id.
  cbn [response expectedChallenge expectedOrigin expectedRPID expectedType
       requireUserVerification advancedFIDOConfig].
  destruct (response options); try reflexivity.
  cbn [set_prop get_prop lookup_prop is_nullish truthy strict_eq
       String.eqb Ascii.eqb Bool.eqb].
  rewrite H1, H2, !String.eqb_refl. reflexivity.
Qed.

End CredentialAndWorld.

(** ** What a result vouches for *)

Lemma includes_In (l : list string) (s : string) :
  includes l s = true <-> In s l.
Proof.
  unfold includes. rewrite existsb_exists. split.
  - intros (x & Hin & Heq). apply String.eqb_eq in Heq. now subst.
  - intros Hin. exists s. split; [assumption | apply String.eqb_refl].
Qed.

Lemma type_accepted_spec (expectedType : option OneOrMany) (type : string) :
  type_accepted expectedType type = true <->
  match expectedType with
  | Some (Many types) => In type types
  | Some (One t) =>
      (t <> EmptyString /\ type = t)
      \/ (t = EmptyString /\ type = "webauthn.get")
  | None => type = "webauthn.get"
  end.
Proof.
  unfold type_accepted. destruct expectedType as [[t | types] |].
  - destruct (String.eqb_spec t EmptyString) as [-> | Hne];
      rewrite String.eqb_eq; intuition congruence.
  - apply includes_In.
  - apply String.eqb_eq.
Qed.

Lemma origin_accepted_spec (expectedOrigin : OneOrMany) (origin : string) :
  origin_accepted expectedOrigin origin = true <->
  match expectedOrigin with
  | One o => origin = o
  | Many origins => In origin origins
  end.
Proof.
  unfold origin_accepted. destruct expectedOrigin.
  - apply String.eqb_eq.
  - apply includes_In.
Qed.

Section Results.

Context {W : Type} {helpers : Helpers}.

(** X1.  A result, whatever its verdict, is only returned when the client
    data decoded and passed the three checks of lines 92-137: its type is one
    of the expected types (["webauthn.get"] when none, or the empty string, is
    given), its challenge is the expected literal or was accepted by the
    caller's verifier in the world of the call, and its origin, which the
    result carries, is an expected origin. *)
Theorem result_vouches_for_type_challenge_origin (options : Options W)
    s r s' :
  verifyAuthenticationResponse options s = (Returned r, s') ->
  exists b64 cd,
    get_prop (assertionResponse options) "clientDataJSON" = JSString b64 /\
    decodeClientDataJSON b64 = inr cd /\
    match expectedType options with
    | Some (Many types) => In (cd_type cd) types
    | Some (One t) =>
        (t <> EmptyString /\ cd_type cd = t)
        \/ (t = EmptyString /\ cd_type cd = "webauthn.get")
    | None => cd_type cd = "webauthn.get"
    end /\
    match expectedChallenge options with
    | ChallengeLiteral expected => cd_challenge cd = expected
    | ChallengeVerifier f =>
        fst (f (cd_challenge cd) (world s)) = Resolves true
    end /\
    origin (authenticationInfo r) = cd_origin cd /\
    match expectedOrigin options with
    | One o => cd_origin cd = o
    | Many origins => In (cd_origin cd) origins
    end.
Proof.
  intros E.
  destruct (returned_inv options s r s' E) as (d & Hpass & _ & Hr & _).
  destruct Hpass as
    (((((_ & _ & _ & _ & (b64 & Hjson & Hdecode) & Htype) & Hchallenge)
       & Horigin) & _) & _).
  exists b64, (d_clientData d).
  split; [exact Hjson |]. split; [exact Hdecode |].
  split; [now apply type_accepted_spec |].
  split.
  - unfold challenge_accepted in Hchallenge.
    destruct (expectedChallenge options);
      [now apply String.eqb_eq | assumption].
  - split; [rewrite Hr; reflexivity | now apply origin_accepted_spec].
Qed.

(** X2.  The facts of a result are read off the authenticator data of the
    request: the counter, the [uv] flag, the extension outputs, the device
    type and backup state that [parseBackupFlags] derives from the flags, and
    the RP ID that [matchExpectedRPID] answers for its RP ID hash among the
    expected RP IDs. *)
Theorem result_reports_authenticator_data (options : Options W) s r s' :
  verifyAuthenticationResponse options s = (Returned r, s') ->
  exists parsed,
    observed_authData options = Some parsed /\
    newCounter (authenticationInfo r) = counter parsed /\
    userVerified (authenticationInfo r) = uv (flags parsed) /\
    parseBackupFlags (flags parsed)
      = inr (credentialDeviceType (authenticationInfo r),
             credentialBackedUp (authenticationInfo r)) /\
    authenticatorExtensionResults (authenticationInfo r)
      = extensionsData parsed /\
    matchExpectedRPID (rpIdHash parsed)
      (match expectedRPID options with One x => [x] | Many xs => xs end)
      = inr (rpID (authenticationInfo r)).
Proof.
  intros E.
  destruct (returned_inv options s r s' E)
    as (d & (Hreach & _ & Hbackup) & _ & Hr & _).
  destruct Hreach as (_ & _ & _ & _ & _ & Hbuffer & Hparse & Hrp & _).
  exists (d_parsed d). rewrite Hr. cbn.
  repeat match goal with |- _ /\ _ => split end; try reflexivity.
  - unfold observed_authData. now rewrite Hbuffer, Hparse.
  - rewrite Hbackup. now destruct (d_backup d).
  - exact Hrp.
Qed.

(** X3.  The counter of a result is strictly greater than the stored one,
    unless neither is positive. *)
Theorem newCounter_advances (options : Options W) s r s' :
  verifyAuthenticationResponse options s = (Returned r, s') ->
  let observed := newCounter (authenticationInfo r) in
  let stored := cred_counter (credential s) in
  stored < observed \/ (observed <= 0 /\ stored <= 0).
Proof.
  intros E.
  destruct (returned_inv options s r s' E)
    as (d & (_ & Hcounter & _) & _ & Hr & _).
  rewrite Hr. cbn.
  pose proof (counter_regressed_spec (counter (d_parsed d))
                (cred_counter (credential s))) as Hspec.
  rewrite Hcounter in Hspec.
  assert (Hnot : ~ ((counter (d_parsed d) > 0
                     \/ cred_counter (credential s) > 0)
                    /\ counter (d_parsed d) <= cred_counter (credential s))).
  { intros H. apply Hspec in H. discriminate. }
  lia.
Qed.

(** X4.  Where user verification is required (by default, by
    [requireUserVerification], or by an advanced requirement of
    ["required"]), every result has [userVerified = true]. *)
Theorem userVerified_when_verification_is_required (options : Options W)
    s r s' :
  verifyAuthenticationResponse options s = (Returned r, s') ->
  match advancedFIDOConfig options with
  | None => requireUserVerification options <> Some false
  | Some config => userVerification config = Some UVRequired
  end ->
  userVerified (authenticationInfo r) = true.
Proof.
  intros E Hrequired.
  destruct (returned_inv options s r s' E)
    as (d & (Hreach & _) & _ & Hr & _).
  destruct Hreach as (_ & _ & _ & _ & _ & _ & _ & _ & Hflags & _).
  rewrite Hr. cbn. revert Hflags.
  unfold flag_policy, effective_requireUserVerification.
  destruct (advancedFIDOConfig options) as [config |].
  - rewrite Hrequired. auto.
  - destruct (requireUserVerification options) as [[|] |];
      try congruence;
      destruct (up (flags (d_parsed d))), (uv (flags (d_parsed d)));
      cbn; congruence.
Qed.

(** X5.  An exception out of [verifySignature] is not a verdict: when
    every check passes and [verifySignature] throws, the call throws that
    exception and returns nothing. *)
Theorem verifySignature_exception_propagates (options : Options W) s d e :
  passes_all_checks options s d ->
  verifySignature (d_signature d) (d_authDataBuffer d ++ d_clientDataHash d)
    (cred_publicKey (credential s)) = inl e ->
  fst (verifyAuthenticationResponse options s)
    = Threw (HelperThrew AtVerifySignature e).
Proof.
  intros (Hreach & Hcounter & Hbackup) Hsig.
  rewrite (run_from_counter_check options s d Hreach). cbv zeta.
  now rewrite Hcounter, Hbackup, Hsig.
Qed.

(** X6.  A request that reaches the counter check with a stalled or
    decreased counter is rejected with the counter error, whatever
    [parseBackupFlags] and [verifySignature] would answer: the signature is
    not submitted for verification. *)
Theorem stale_counter_is_reported_before_signature (options : Options W)
    s d :
  reaches_counter_check options s d ->
  let observed := counter (d_parsed d) in
  let stored := cred_counter (credential s) in
  (observed > 0 \/ stored > 0) /\ observed <= stored ->
  fst (verifyAuthenticationResponse options s)
    = Threw (CounterRegression observed stored) /\
  exists evs,
    trace (snd (verifyAuthenticationResponse options s)) = trace s ++ evs /\
    signature_verifications evs = 0%nat.
Proof.
  intros Hreach observed stored Hstale. subst observed stored.
  apply counter_regressed_spec in Hstale.
  destruct (verifyAuthenticationResponse options s) as [o s'] eqn:E.
  destruct (external_calls options s o s' E) as (evs & Htrace & Hsig & _).
  rewrite (run_from_counter_check options s d Hreach) in E. cbv zeta in E.
  rewrite Hstale in E. injection E as <- <-.
  split; [reflexivity |]. exists evs. auto.
Qed.

(** X7.  With an empty array of expected types, or of expected origins, no
    request is accepted. *)
Theorem empty_expectation_accepts_nothing (options : Options W) s :
  expectedType options = Some (Many []) \/ expectedOrigin options = Many [] ->
  forall r, fst (verifyAuthenticationResponse options s) <> Returned r.
Proof.
  intros Hempty r Hr.
  destruct (verifyAuthenticationResponse options s) as [o s'] eqn:E.
  cbn in Hr. subst o.
  destruct (returned_inv options s r s' E) as (d & Hpass & _).
  destruct Hpass as
    (((((_ & _ & _ & _ & _ & Htype) & _) & Horigin) & _) & _).
  destruct Hempty as [H | H].
  - rewrite H in Htype. discriminate.
  - rewrite H in Horigin. discriminate.
Qed.

End Results.

(** ** The expected values and the token binding *)

Lemma tokenBinding_status_known_spec (tokenBinding : JSValue) :
  tokenBinding_status_known tokenBinding = true <->
  In (get_prop tokenBinding "status") known_tokenBinding_statuses.
Proof.
  unfold tokenBinding_status_known, known_tokenBinding_statuses, indexOf.
  destruct (get_prop tokenBinding "status") as [| | b | n | status | ref props];
    cbn [indexOf_from strict_eq In];
    try (split; [discriminate | intros [H | [H | [H | []]]]; discriminate]).
  destruct (String.eqb_spec "present" status) as [<- | H1];
    [split; [auto | reflexivity] |].
  destruct (String.eqb_spec "supported" status) as [<- | H2];
    [split; [auto | reflexivity] |].
  destruct (String.eqb_spec "notSupported" status) as [<- | H3];
    [split; [auto | reflexivity] |].
  split; [discriminate |].
  intros [H | [H | [H | []]]]; congruence.
Qed.

Lemma truthy_object_typed (v : JSValue) :
  truthy v = true -> (typeof v =? "object")%string = true ->
  exists ref props, v = JSObject ref props.
Proof. destruct v; cbn; try discriminate; eauto. Qed.

Lemma tokenBinding_accepted_spec (tokenBinding : JSValue) :
  tokenBinding_accepted tokenBinding = true <->
  truthy tokenBinding = false \/
  exists ref props,
    tokenBinding = JSObject ref props /\
    In (lookup_prop props "status") known_tokenBinding_statuses.
Proof.
  unfold tokenBinding_accepted.
  rewrite orb_true_iff, andb_true_iff, negb_true_iff,
    tokenBinding_status_known_spec.
  split.
  - intros [H | [Htype Hstatus]]; [now left |].
    destruct (truthy tokenBinding) eqn:Htruthy; [right | now left].
    destruct (truthy_object_typed tokenBinding Htruthy Htype)
      as (ref & props & ->).
    eauto.
  - intros [H | (ref & props & -> & Hstatus)]; [now left |].
    right. split; [reflexivity | exact Hstatus].
Qed.

Lemma tokenBinding_rejected_spec (tokenBinding : JSValue) :
  tokenBinding_accepted tokenBinding = false ->
  (tokenBinding_rejection tokenBinding = TokenBindingNotObject /\
   truthy tokenBinding = true /\
   forall ref props, tokenBinding <> JSObject ref props) \/
  (exists ref props,
     tokenBinding = JSObject ref props /\
     tokenBinding_rejection tokenBinding
       = UnexpectedTokenBindingStatus (lookup_prop props "status") /\
     ~ In (lookup_prop props "status") known_tokenBinding_statuses).
Proof.
  intros Hrejected.
  assert (Hnot : ~ (truthy tokenBinding = false \/
                    exists ref props,
                      tokenBinding = JSObject ref props /\
                      In (lookup_prop props "status")
                         known_tokenBinding_statuses)).
  { intros H. apply tokenBinding_accepted_spec in H. congruence. }
  destruct (truthy tokenBinding) eqn:Htruthy;
    [| exfalso; apply Hnot; now left].
  destruct tokenBinding as [| | b | n | str | ref props];
    try discriminate Htruthy;
    try (left; repeat split; discriminate).
  right. exists ref, props. repeat split. intros Hin. apply Hnot. eauto.
Qed.

Section Variations.

Context {W : Type} {helpers : Helpers}.

(** Acceptance depends on the expected values through what they accept. *)
Lemma returned_transfer (options options' : Options W) s r s' :
  response options' = response options ->
  expectedChallenge options' = expectedChallenge options ->
  requireUserVerification options' = requireUserVerification options ->
  advancedFIDOConfig options' = advancedFIDOConfig options ->
  (forall type, type_accepted (expectedType options) type = true ->
                type_accepted (expectedType options') type = true) ->
  (forall o, origin_accepted (expectedOrigin options) o = true ->
             origin_accepted (expectedOrigin options') o = true) ->
  match expectedRPID options' with One x => [x] | Many xs => xs end
    = match expectedRPID options with One x => [x] | Many xs => xs end ->
  verifyAuthenticationResponse options s = (Returned r, s') ->
  verifyAuthenticationResponse options' s = (Returned r, s').
Proof.
  intros Hresponse Hchallenge Hrequire Hconfig Htype Horigin Hrp E.
  destruct (returned_inv options s r s' E) as (d & Hpass & Hsig & Hr & Hs').
  assert (Hpass' : passes_all_checks options' s d).
  { unfold passes_all_checks, reaches_counter_check, reaches_encoding_checks,
      reaches_origin_check, reaches_challenge_check, challenge_accepted,
      effective_requireUserVerification, assertionResponse in *.
    cbv zeta in *.
    rewrite Hresponse, Hchallenge, Hrequire, Hconfig, Hrp.
    intuition auto. }
  rewrite (returned_intro options' s d (verified r) Hpass' Hsig).
  f_equal; [f_equal; symmetry; exact Hr |].
  rewrite Hs'. unfold after_verification, after_challenge.
  now rewrite Hchallenge.
Qed.

(** X8.  A single expected value stands for the array that holds it alone:
    the same requests are accepted, with the same result, for an origin given
    as a string or as a one-element array and for a non-empty type given
    either way; for an RP ID the whole run is the same. *)
Theorem single_value_is_one_element_array (options : Options W) s x :
  (expectedOrigin options = One x ->
   forall r s',
     verifyAuthenticationResponse options s = (Returned r, s') <->
     verifyAuthenticationResponse (with_expectedOrigin options (Many [x])) s
       = (Returned r, s')) /\
  (expectedRPID options = One x ->
   verifyAuthenticationResponse (with_expectedRPID options (Many [x])) s
     = verifyAuthenticationResponse options s) /\
  (expectedType options = Some (One x) -> x <> EmptyString ->
   forall r s',
     verifyAuthenticationResponse options s = (Returned r, s') <->
     verifyAuthenticationResponse
       (with_expectedType options (Some (Many [x]))) s
       = (Returned r, s')).
Proof.
  split; [| split].
  - intros Hone r s'. split; apply returned_transfer; try reflexivity;
      cbn [with_expectedOrigin expectedOrigin expectedType]; auto;
      rewrite Hone; intros o; unfold origin_accepted, includes; cbn;
      rewrite orb_false_r, (String.eqb_sym x o); auto.
  - intros Hone. unfold verifyAuthenticationResponse, with_expectedRPID.
    cbn [response expectedChallenge expectedOrigin expectedRPID expectedType
         requireUserVerification advancedFIDOConfig].
    now rewrite Hone.
  - intros Hone Hne r s'. apply String.eqb_neq in Hne.
    split; apply returned_transfer; try reflexivity;
      cbn [with_expectedType expectedOrigin expectedType]; auto;
      rewrite Hone; intros type; unfold type_accepted, includes; cbn;
      rewrite Hne, orb_false_r, (String.eqb_sym x type); auto.
Qed.

(** X9.  The token binding of the client data is checked by lines 156-166:
    a result is only returned when it is falsy or an object whose [status] is
    ["present"], ["supported"] or ["notSupported"]; the not-an-object error
    is thrown for a truthy value that is no object, and the status error for
    an object with any other status, which the error names. *)
Theorem tokenBinding_is_validated (options : Options W) s o s' :
  verifyAuthenticationResponse options s = (o, s') ->
  (forall r, o = Returned r ->
     exists b64 cd,
       get_prop (assertionResponse options) "clientDataJSON" = JSString b64 /\
       decodeClientDataJSON b64 = inr cd /\
       (truthy (cd_tokenBinding cd) = false \/
        exists ref props,
          cd_tokenBinding cd = JSObject ref props /\
          In (lookup_prop props "status") known_tokenBinding_statuses)) /\
  (o = Threw TokenBindingNotObject ->
     exists b64 cd,
       get_prop (assertionResponse options) "clientDataJSON" = JSString b64 /\
       decodeClientDataJSON b64 = inr cd /\
       truthy (cd_tokenBinding cd) = true /\
       forall ref props, cd_tokenBinding cd <> JSObject ref props) /\
  (forall status, o = Threw (UnexpectedTokenBindingStatus status) ->
     exists b64 cd ref props,
       get_prop (assertionResponse options) "clientDataJSON" = JSString b64 /\
       decodeClientDataJSON b64 = inr cd /\
       cd_tokenBinding cd = JSObject ref props /\
       status = lookup_prop props "status" /\
       ~ In status known_tokenBinding_statuses).
Proof.
  intros E. run_cases E; injection E as <- <-.
  all: repeat match goal with |- _ /\ _ => split end;
    try (intros; discriminate).
  all: try (intros; exfalso;
            match goal with
            | H : Threw (flags_rejection _ _) = _ |- _ =>
                revert H; settle_rejections; discriminate
            end).
  all: try (intros r _; eexists; eexists;
            split; [eassumption |]; split; [eassumption |];
            now apply tokenBinding_accepted_spec).
  all: match goal with
       | H : tokenBinding_accepted _ = false |- _ =>
           destruct (tokenBinding_rejected_spec _ H)
             as [(Hkind & Htruthy & Hobject)
                | (ref & props & Hobject & Hkind & Hstatus)];
           rewrite Hkind
       end.
  all: try (intros; discriminate).
  all: try (intros status [= <-]).
  all: intros; repeat eexists; eauto.
Qed.

End Variations.

(** ** What the function reads of the response *)

Lemma userHandle_passes_test (u : JSValue) :
  userHandle_passes u ->
  truthy u && negb (typeof u =? "string")%string = false.
Proof.
  intros [H | (str & ->)].
  - now rewrite H.
  - cbn. apply andb_false_r.
Qed.

Lemma get_set_prop_other (v : JSValue) (key key' : string) (x : JSValue) :
  key <> key' -> get_prop (set_prop v key x) key' = get_prop v key'.
Proof.
  intros Hne. destruct v; try reflexivity. cbn.
  apply String.eqb_neq in Hne. now rewrite Hne.
Qed.

Lemma get_set_prop_same (v : JSValue) (key key' : string) (x : JSValue) :
  get_prop (set_prop v key (set_prop (get_prop v key) key' x)) key
    = set_prop (get_prop v key) key' x.
Proof. destruct v; try reflexivity. cbn. now rewrite String.eqb_refl. Qed.

Lemma nullish_set_prop (v : JSValue) (key : string) (x : JSValue) :
  is_nullish (set_prop v key x) = is_nullish v.
Proof. now destruct v. Qed.

Lemma truthy_set_prop (v : JSValue) (key : string) (x : JSValue) :
  truthy (set_prop v key x) = truthy v.
Proof. now destruct v. Qed.

Section WhatIsRead.

Context {W : Type} {helpers : Helpers}.

Lemma run_congruence (options : Options W) (v v' : JSValue) s :
  is_nullish v' = is_nullish v ->
  truthy v' = truthy v ->
  get_prop v' "id" = get_prop v "id" ->
  get_prop v' "rawId" = get_prop v "rawId" ->
  get_prop v' "type" = get_prop v "type" ->
  get_prop (get_prop v' "response") "clientDataJSON"
    = get_prop (get_prop v "response") "clientDataJSON" ->
  get_prop (get_prop v' "response") "authenticatorData"
    = get_prop (get_prop v "response") "authenticatorData" ->
  get_prop (get_prop v' "response") "signature"
    = get_prop (get_prop v "response") "signature" ->
  truthy (get_prop (get_prop v' "response") "userHandle")
    && negb (typeof (get_prop (get_prop v' "response") "userHandle")
             =? "string")%string
  = truthy (get_prop (get_prop v "response") "userHandle")
    && negb (typeof (get_prop (get_prop v "response") "userHandle")
             =? "string")%string ->
  verifyAuthenticationResponse (with_response options v') s
    = verifyAuthenticationResponse (with_response options v) s.
Proof.
  intros Hn Ht Hid Hraw Htype Hcd Had Hsig Huh.
  unfold verifyAuthenticationResponse, with_response.
  cbn [response expectedChallenge expectedOrigin expectedRPID expectedType
       requireUserVerification advancedFIDOConfig].
  rewrite Hn, Ht, Hid, Hraw, Htype, Hcd, Had, Hsig, Huh.
  reflexivity.
Qed.

Lemma run_with_own_response (options : Options W) s :
  verifyAuthenticationResponse (with_response options (response options)) s
    = verifyAuthenticationResponse options s.
Proof. reflexivity. Qed.

(** X10.  [userHandle] is tested and then never used: the run is the same
    for any two values of it that pass the test of lines 149-154, falsy
    values or strings. *)
Theorem userHandle_is_not_used (options : Options W) s u1 u2 :
  userHandle_passes u1 -> userHandle_passes u2 ->
  verifyAuthenticationResponse (with_userHandle options u1) s
    = verifyAuthenticationResponse (with_userHandle options u2) s.
Proof.
  intros H1 H2.
  change (verifyAuthenticationResponse
            (with_response options
               (set_prop (response options) "response"
                  (set_prop (get_prop (response options) "response")
                     "userHandle" u1))) s
          = verifyAuthenticationResponse
              (with_response options
                 (set_prop (response options) "response"
                    (set_prop (get_prop (response options) "response")
                       "userHandle" u2))) s).
  apply run_congruence;
    rewrite ?nullish_set_prop, ?truthy_set_prop, ?get_set_prop_same;
    (rewrite ?get_set_prop_other by discriminate);
    try reflexivity.
  destruct (get_prop (response options) "response")
    as [| | b | n | str | ref props]; try reflexivity.
  cbn [set_prop get_prop lookup_prop String.eqb Ascii.eqb Bool.eqb].
  now rewrite (userHandle_passes_test u1 H1), (userHandle_passes_test u2 H2).
Qed.

(** X11.  The function reads four members of the credential ([id], [rawId],
    [type], [response]) and four of its [response] ([clientDataJSON],
    [authenticatorData], [signature], [userHandle]): setting any other
    member, of either, leaves the run as it was. *)
Theorem unread_members_are_ignored (options : Options W) s key x :
  (~ In key credential_members_read ->
   verifyAuthenticationResponse
     (with_response options (set_prop (response options) key x)) s
     = verifyAuthenticationResponse options s) /\
  (~ In key response_members_read ->
   verifyAuthenticationResponse
     (with_response options
        (set_prop (response options) "response"
           (set_prop (get_prop (response options) "response") key x))) s
     = verifyAuthenticationResponse options s).
Proof.
  unfold credential_members_read, response_members_read. cbn [In].
  split; intros Hkey;
    (transitivity
       (verifyAuthenticationResponse
          (with_response options (response options)) s);
     [| apply run_with_own_response]);
    apply run_congruence;
    rewrite ?nullish_set_prop, ?truthy_set_prop, ?get_set_prop_same;
    (rewrite ?get_set_prop_other by intuition congruence);
    reflexivity.
Qed.

End WhatIsRead.

(** ** The scenarios of the specification, run on the bench *)

Import Fixture.

Lemma scenarioA_returns :
  run scenarioA (stored 4 [])
    = (Returned resultA, snd (run scenarioA (stored 4 []))).
Proof. vm_compute. reflexivity. Qed.

(** Scenario B: the same request against a stored counter of 5. *)
Example scenarioB_throws :
  fst (run scenarioA (stored 5 [])) = Threw (CounterRegression 5 5).
Proof. vm_compute. reflexivity. Qed.

Lemma verified_is_signature_witness :
  exists signature data,
    fx_verifySignature signature data key = inr true /\
    In (EvVerifySignature signature data key)
       (trace (snd (run scenarioA (stored 4 [])))).
Proof.
  destruct (verified_is_signature_over_authData_and_clientDataHash
              (helpers := helpers) scenarioA (stored 4 []) resultA
              (snd (run scenarioA (stored 4 []))) scenarioA_returns)
    as (cdj & authData & cdBuffer & hash & sg & _ & _ & _ & _ & _ & Hv
        & earlier & Ht & _).
  exists sg, (authData ++ hash). split; [exact Hv |].
  rewrite Ht. apply in_or_app. right. apply in_or_app. right.
  left. reflexivity.
Defined.

Lemma counter_regression_witness :
  (fst (run scenarioA (with_counter (stored 0 []) 5))
     = Threw (CounterRegression 5 5)
   <-> (5 > 0 \/ 5 > 0) /\ 5 <= 5) /\
  (exists r, fst (run scenarioA (with_counter (stored 0 []) 4)) = Returned r).
Proof.
  assert (E : run scenarioA (with_counter (stored 0 []) 4)
              = (Returned resultA,
                 snd (run scenarioA (with_counter (stored 0 []) 4))))
    by (vm_compute; reflexivity).
  destruct (counter_regression_iff (helpers := helpers) scenarioA
              (stored 0 []) 4 resultA _ E) as (parsed & Hobserved & H).
  vm_compute in Hobserved. injection Hobserved as <-.
  split.
  - exact (proj1 (H 5)).
  - apply (proj2 (proj2 (proj2 (proj2 (H 4))))). cbn. lia.
Defined.

Lemma scenarioE_passes_all_checks :
  @passes_all_checks World helpers scenarioE (stored 4 []) derivedE.
Proof.
  unfold passes_all_checks, reaches_counter_check, reaches_encoding_checks,
    reaches_origin_check, reaches_challenge_check, challenge_accepted.
  cbv zeta.
  repeat match goal with |- _ /\ _ => split end;
    try (vm_compute; reflexivity).
  - exists get_clientData. split; vm_compute; reflexivity.
  - exists get_clientData,
      (match decode get_clientData with Some d => d | None => [] end).
    repeat match goal with |- _ /\ _ => split end; vm_compute; reflexivity.
Qed.

Lemma invalid_signature_witness :
  fst (run scenarioE (stored 4 []))
    = Returned
        {| verified := false;
           authenticationInfo := authenticationInfo resultA |}.
Proof.
  apply (invalid_signature_is_reported_not_thrown (helpers := helpers)
           scenarioE (stored 4 []) derivedE scenarioE_passes_all_checks).
  vm_compute. reflexivity.
Defined.

Lemma flag_policy_modes_witness :
  fst (run (expecting (ChallengeLiteral "abc123") presence_only)
         (stored 4 []))
    = Threw UserVerificationRequired /\
  fst (run (discouraged (expecting (ChallengeLiteral "abc123") presence_only))
         (stored 4 []))
    <> Threw UserVerificationRequired.
Proof.
  split.
  - vm_compute. reflexivity.
  - apply (proj2 (proj2 (proj2 (proj2
             (@flag_policy_modes World helpers))))
             (discouraged
                (expecting (ChallengeLiteral "abc123") presence_only))
             (stored 4 [])
             {| userVerification := Some UVDiscouraged |}).
    + reflexivity.
    + discriminate.
Defined.

Lemma scenarioC_reaches_origin_check :
  @reaches_origin_check World helpers scenarioC (stored 4 [])
    {| cd_type := "webauthn.get"; cd_challenge := "abc123";
       cd_origin := "https://evil.example"; cd_tokenBinding := JSUndefined |}.
Proof.
  unfold reaches_origin_check, reaches_challenge_check, challenge_accepted.
  repeat match goal with |- _ /\ _ => split end;
    try (vm_compute; reflexivity).
  exists evil_clientData. split; vm_compute; reflexivity.
Qed.

Lemma scenarioD_reaches_challenge_check :
  @reaches_challenge_check World helpers scenarioD
    {| cd_type := "webauthn.get"; cd_challenge := "abc123";
       cd_origin := "https://example.com"; cd_tokenBinding := JSUndefined |}.
Proof.
  unfold reaches_challenge_check.
  repeat match goal with |- _ /\ _ => split end;
    try (vm_compute; reflexivity).
  exists get_clientData. split; vm_compute; reflexivity.
Qed.

Lemma policy_rejections_witness :
  (fst (run scenarioC (stored 4 []))
     = Threw (UnexpectedOrigin "https://evil.example"
                (One "https://example.com"))
   /\ exists evs, trace (snd (run scenarioC (stored 4 []))) = [] ++ evs
                  /\ signature_verifications evs = 0%nat) /\
  (fst (run scenarioD (stored 4 [])) = Threw (VerifierReturnedFalse "abc123")
   /\ exists evs, trace (snd (run scenarioD (stored 4 []))) = [] ++ evs
                  /\ signature_verifications evs = 0%nat).
Proof.
  split.
  - apply (proj1 (policy_rejections_precede_signature (helpers := helpers)
                    scenarioC (stored 4 []))
             _ scenarioC_reaches_origin_check).
    vm_compute. reflexivity.
  - apply (proj1 (proj2 (policy_rejections_precede_signature
                           (helpers := helpers) scenarioD (stored 4 [])))
             _ scenarioD_reaches_challenge_check).
    vm_compute. reflexivity.
Defined.

(** C5 as stated fails.  The request of scenario C checked against another
    challenge has an origin that is not expected, yet the call throws the
    challenge error of line 117 and not the origin error of line 131; and a
    request made for a registration, checked against another challenge, has
    a rejected challenge, yet the call throws the type error of line 101 and
    not the challenge error. *)
Lemma policy_error_preempted_counterexample :
  let stale := expecting (ChallengeLiteral "zzz") (response scenarioC) in
  let created :=
    expecting (ChallengeLiteral "zzz")
      (assertion credentialId key
         (clientData "webauthn.create" "abc123" "https://example.com")
         get_authData) in
  (exists b64 cd,
      get_prop (assertionResponse stale) "clientDataJSON" = JSString b64 /\
      @decodeClientDataJSON helpers b64 = inr cd /\
      origin_accepted (expectedOrigin stale) (cd_origin cd) = false /\
      fst (run stale (stored 4 []))
        <> Threw (UnexpectedOrigin (cd_origin cd) (expectedOrigin stale))) /\
  fst (run stale (stored 4 [])) = Threw (UnexpectedChallenge "abc123" "zzz") /\
  (exists b64 cd,
      get_prop (assertionResponse created) "clientDataJSON" = JSString b64 /\
      @decodeClientDataJSON helpers b64 = inr cd /\
      challenge_rejected created (world (stored 4 [])) (cd_challenge cd) /\
      fst (run created (stored 4 []))
        <> Threw (UnexpectedChallenge (cd_challenge cd) "zzz")) /\
  fst (run created (stored 4 []))
    = Threw (UnexpectedResponseType "webauthn.create" None).
Proof.
  cbv zeta.
  assert (E1 : fst (run (expecting (ChallengeLiteral "zzz")
                           (response scenarioC)) (stored 4 []))
               = Threw (UnexpectedChallenge "abc123" "zzz"))
    by (vm_compute; reflexivity).
  assert (E2 : fst (run (expecting (ChallengeLiteral "zzz")
                           (assertion credentialId key
                              (clientData "webauthn.create" "abc123"
                                 "https://example.com")
                              get_authData)) (stored 4 []))
               = Threw (UnexpectedResponseType "webauthn.create" None))
    by (vm_compute; reflexivity).
  rewrite E1, E2.
  repeat match goal with |- _ /\ _ => split end; try reflexivity.
  - exists evil_clientData,
      {| cd_type := "webauthn.get"; cd_challenge := "abc123";
         cd_origin := "https://evil.example";
         cd_tokenBinding := JSUndefined |}.
    repeat match goal with |- _ /\ _ => split end;
      try (vm_compute; reflexivity).
    discriminate.
  - exists (clientData "webauthn.create" "abc123" "https://example.com"),
      {| cd_type := "webauthn.create"; cd_challenge := "abc123";
         cd_origin := "https://example.com";
         cd_tokenBinding := JSUndefined |}.
    repeat match goal with |- _ /\ _ => split end;
      try (vm_compute; reflexivity).
    discriminate.
Qed.

(** The request with an empty [id] is stopped at line 64, although the ID is
    there and differs from [rawId]. *)
Lemma structural_validation_witness :
  fst (run (expecting (ChallengeLiteral "abc123") empty_id) (stored 4 []))
    = Threw MissingCredentialID.
Proof.
  apply (proj1 (structural_validation_fail_fast (helpers := helpers)
                  (expecting (ChallengeLiteral "abc123") empty_id)
                  (stored 4 []))).
  split; vm_compute; reflexivity.
Defined.

(** C6 as stated fails.  With [id] the empty string and [rawId] = ["abc"],
    the ID is present and differs from [rawId], yet the call throws the
    missing-ID error and not the mismatch error; and with [userHandle] the
    boolean [false], which is present and not a string, and everything else
    in order, the call throws no encoding error but returns a result. *)
Lemma structural_iffs_counterexample :
  let malformed := expecting (ChallengeLiteral "abc123") empty_id in
  let odd := expecting (ChallengeLiteral "abc123") boolean_userHandle in
  ~ (fst (run malformed (stored 4 [])) = Threw MissingCredentialID <->
     get_prop (response malformed) "id" = JSUndefined) /\
  ~ (fst (run malformed (stored 4 [])) = Threw CredentialIDNotBase64URL <->
     strict_eq (get_prop (response malformed) "id")
               (get_prop (response malformed) "rawId") = false) /\
  ~ (fst (run odd (stored 4 [])) = Threw UserHandleNotString <->
     get_prop (assertionResponse odd) "userHandle" <> JSUndefined /\
     (typeof (get_prop (assertionResponse odd) "userHandle") =? "string")
       %string = false) /\
  fst (run odd (stored 4 [])) = Returned resultA.
Proof.
  cbv zeta.
  assert (E1 : fst (run (expecting (ChallengeLiteral "abc123") empty_id)
                      (stored 4 [])) = Threw MissingCredentialID)
    by (vm_compute; reflexivity).
  assert (E2 : fst (run (expecting (ChallengeLiteral "abc123")
                           boolean_userHandle) (stored 4 []))
               = Returned resultA)
    by (vm_compute; reflexivity).
  rewrite E1, E2.
  repeat match goal with |- _ /\ _ => split end.
  - intros [H _]. specialize (H eq_refl). vm_compute in H. discriminate H.
  - intros [_ H]. assert (Hd : Threw (A := VerifiedAuthenticationResponse)
                                 MissingCredentialID
                               = Threw CredentialIDNotBase64URL).
    { apply H. vm_compute. reflexivity. }
    discriminate Hd.
  - intros [_ H]. assert (Hd : Returned resultA = Threw UserHandleNotString).
    { apply H. split; [vm_compute; discriminate | vm_compute; reflexivity]. }
    discriminate Hd.
  - reflexivity.
Qed.

Lemma verifier_awaited_witness :
  exists evs,
    trace (snd (run scenarioD (stored 4 ["abc123"]))) = [] ++ evs /\
    verifier_calls evs = 1%nat.
Proof.
  destruct (verifier_awaited_once_when_reached (helpers := helpers)
              scenarioD (stored 4 ["abc123"]) use_challenge eq_refl)
    as (evs & Htrace & _ & Hone & _).
  exists evs. split; [exact Htrace |].
  apply Hone. eexists. exact scenarioD_reaches_challenge_check.
Defined.

(** C7 as stated fails.  The request without an [id], checked with a
    verifier, is rejected at line 64: the verifier is not invoked at all. *)
Lemma verifier_not_invoked_counterexample :
  let options := expecting (ChallengeVerifier use_challenge) missing_id in
  expectedChallenge options = ChallengeVerifier use_challenge /\
  fst (run options (stored 4 ["abc123"])) = Threw MissingCredentialID /\
  verifier_calls (trace (snd (run options (stored 4 ["abc123"])))) <> 1%nat /\
  world (snd (run options (stored 4 ["abc123"]))) = ["abc123"].
Proof.
  cbv zeta. split; [reflexivity |]. split; [vm_compute; reflexivity |].
  split; [vm_compute; discriminate | vm_compute; reflexivity].
Qed.

Lemma credential_is_only_read_witness :
  credential (snd (run scenarioA (stored 4 [])))
    = credential (stored 4 []) /\
  fst (run scenarioA (stored_elsewhere 4 []))
    = fst (run scenarioA (stored 4 [])).
Proof.
  split.
  - exact (proj1 (credential_is_only_read (helpers := helpers) scenarioA
                    (stored 4 []))).
  - exact (proj1 (proj2 (credential_is_only_read (helpers := helpers)
                           scenarioA (stored 4 []))
                    (stored_elsewhere 4 []) eq_refl eq_refl eq_refl
                    eq_refl)).
Defined.

(** ** The credential ID of the result *)

(** C10.  The [credentialID] of a result is the [id] of the caller's
    credential.  The ID sent in the response is never compared with it: the
    call takes the same course for any two non-empty IDs sent as [id] and
    [rawId]; so a result, with [verified = true] when the signature verifies
    under the credential's public key, is returned for a response whose ID is
    not that of the credential. *)
Theorem credentialID_is_the_stored_credential :
  (forall W (helpers : Helpers) (options : Options W) s r s',
      verifyAuthenticationResponse options s = (Returned r, s') ->
      credentialID (authenticationInfo r) = cred_id (credential s)) /\
  (forall W (helpers : Helpers) (options : Options W) s i1 i2,
      i1 <> EmptyString -> i2 <> EmptyString ->
      verifyAuthenticationResponse (with_response_id options i1) s
        = verifyAuthenticationResponse (with_response_id options i2) s) /\
  (exists (options : Options World) s r,
      get_prop (response options) "id" = JSString otherId /\
      get_prop (response options) "rawId" = JSString otherId /\
      cred_id (credential s) <> otherId /\
      fst (run options s) = Returned r /\
      verified r = true /\
      credentialID (authenticationInfo r) = cred_id (credential s)).
Proof.
  split; [| split].
  - intros W helpers options s r s' E.
    destruct (returned_inv options s r s' E) as (d & _ & _ & -> & _).
    reflexivity.
  - intros W helpers options s i1 i2.
    apply response_id_is_not_compared.
  - exists (with_response_id scenarioA otherId), (stored 4 []), resultA.
    repeat match goal with |- _ /\ _ => split end;
      try (vm_compute; reflexivity).
    vm_compute. discriminate.
Qed.

Lemma credentialID_witness :
  credentialID (authenticationInfo resultA) = credentialId /\
  run (with_response_id scenarioA otherId) (stored 4 [])
    = run (with_response_id scenarioA credentialId) (stored 4 []).
Proof.
  split.
  - exact (proj1 credentialID_is_the_stored_credential World helpers
             scenarioA (stored 4 []) resultA _ scenarioA_returns).
  - apply (proj1 (proj2 credentialID_is_the_stored_credential) World helpers
             scenarioA (stored 4 []) otherId credentialId);
      vm_compute; discriminate.
Defined.

(** ** Further runs on the bench *)

Lemma result_vouches_witness :
  exists b64 cd,
    get_prop (assertionResponse scenarioA) "clientDataJSON" = JSString b64 /\
    fx_decodeClientDataJSON b64 = inr cd /\
    cd_type cd = "webauthn.get" /\
    cd_challenge cd = "abc123" /\
    origin (authenticationInfo resultA) = cd_origin cd /\
    cd_origin cd = "https://example.com".
Proof.
  exact (result_vouches_for_type_challenge_origin (helpers := helpers)
           scenarioA (stored 4 []) resultA
           (snd (run scenarioA (stored 4 []))) scenarioA_returns).
Defined.

Lemma result_reports_witness :
  exists parsed,
    @observed_authData World helpers scenarioA = Some parsed /\
    newCounter (authenticationInfo resultA) = counter parsed /\
    userVerified (authenticationInfo resultA) = uv (flags parsed).
Proof.
  destruct (result_reports_authenticator_data (helpers := helpers)
              scenarioA (stored 4 []) resultA
              (snd (run scenarioA (stored 4 []))) scenarioA_returns)
    as (parsed & Hobserved & Hcounter & Huv & _).
  exists parsed. auto.
Defined.

Lemma newCounter_advances_witness :
  4 < newCounter (authenticationInfo resultA)
  \/ (newCounter (authenticationInfo resultA) <= 0 /\ 4 <= 0).
Proof.
  exact (newCounter_advances (helpers := helpers) scenarioA (stored 4 [])
           resultA (snd (run scenarioA (stored 4 []))) scenarioA_returns).
Defined.

Lemma userVerified_witness :
  userVerified (authenticationInfo resultA) = true.
Proof.
  apply (userVerified_when_verification_is_required (helpers := helpers)
           scenarioA (stored 4 []) resultA
           (snd (run scenarioA (stored 4 []))) scenarioA_returns).
  discriminate.
Defined.

Lemma scenarioE_reaches_counter_check (count : Z) :
  @reaches_counter_check World helpers scenarioE (stored count []) derivedE.
Proof.
  unfold reaches_counter_check, reaches_encoding_checks,
    reaches_origin_check, reaches_challenge_check, challenge_accepted.
  cbv zeta.
  repeat match goal with |- _ /\ _ => split end;
    try (vm_compute; reflexivity).
  - exists get_clientData. split; vm_compute; reflexivity.
  - exists get_clientData,
      (match decode get_clientData with Some d => d | None => [] end).
    repeat match goal with |- _ /\ _ => split end; vm_compute; reflexivity.
Qed.

Lemma scenarioE_passes_without_key :
  @passes_all_checks World helpers scenarioE (stored_without_key 4) derivedE.
Proof.
  split; [exact (scenarioE_reaches_counter_check 4) |].
  split; vm_compute; reflexivity.
Qed.

Lemma verifySignature_exception_witness :
  fst (run scenarioE (stored_without_key 4))
    = Threw (HelperThrew AtVerifySignature "Public key was missing").
Proof.
  apply (verifySignature_exception_propagates (helpers := helpers)
           scenarioE (stored_without_key 4) derivedE
           "Public key was missing" scenarioE_passes_without_key).
  vm_compute. reflexivity.
Defined.

Lemma stale_counter_witness :
  fst (run scenarioE (stored 5 [])) = Threw (CounterRegression 5 5) /\
  exists evs,
    trace (snd (run scenarioE (stored 5 []))) = [] ++ evs /\
    signature_verifications evs = 0%nat.
Proof.
  apply (stale_counter_is_reported_before_signature (helpers := helpers)
           scenarioE (stored 5 []) derivedE
           (scenarioE_reaches_counter_check 5)).
  cbn. lia.
Defined.

Lemma empty_expectation_witness :
  expectedOrigin (with_expectedOrigin scenarioA (Many [])) = Many [] /\
  fst (run (with_expectedOrigin scenarioA (Many [])) (stored 4 []))
    <> Returned resultA.
Proof.
  split.
  - reflexivity.
  - apply (empty_expectation_accepts_nothing (helpers := helpers)
             (with_expectedOrigin scenarioA (Many [])) (stored 4 [])).
    right. reflexivity.
Defined.

Lemma single_value_witness :
  run (with_expectedOrigin scenarioA (Many ["https://example.com"]))
    (stored 4 [])
    = (Returned resultA, snd (run scenarioA (stored 4 []))) /\
  run (with_expectedRPID scenarioA (Many ["example.com"])) (stored 4 [])
    = run scenarioA (stored 4 []).
Proof.
  split.
  - exact (proj1 (proj1 (single_value_is_one_element_array
                           (helpers := helpers) scenarioA (stored 4 [])
                           "https://example.com")
                    (eq_refl (One "https://example.com")) resultA
                    (snd (run scenarioA (stored 4 []))))
             scenarioA_returns).
  - exact (proj1 (proj2 (single_value_is_one_element_array
                           (helpers := helpers) scenarioA (stored 4 [])
                           "example.com"))
             (eq_refl (One "example.com"))).
Defined.

(** The status ["not-supported"], spelled with a dash, is not one of the
    three of line 162. *)
Lemma tokenBinding_witness :
  let dashed := JSObject 7 [("status", JSString "not-supported")] in
  fst (@verifyAuthenticationResponse World
         (helpers_with_tokenBinding dashed) scenarioA (stored 4 []))
    = Threw (UnexpectedTokenBindingStatus (JSString "not-supported")) /\
  ~ In (JSString "not-supported") known_tokenBinding_statuses.
Proof.
  cbv zeta.
  assert (E : @verifyAuthenticationResponse World
                (helpers_with_tokenBinding
                   (JSObject 7 [("status", JSString "not-supported")]))
                scenarioA (stored 4 [])
              = (Threw (UnexpectedTokenBindingStatus
                          (JSString "not-supported")),
                 stored 4 []))
    by (vm_compute; reflexivity).
  split; [rewrite E; reflexivity |].
  destruct (proj2 (proj2 (tokenBinding_is_validated
                            (helpers := helpers_with_tokenBinding _)
                            scenarioA (stored 4 []) _ _ E))
              (JSString "not-supported") eq_refl)
    as (b64 & cd & ref & props & _ & _ & _ & _ & Hstatus).
  exact Hstatus.
Defined.

Lemma userHandle_witness :
  run (with_userHandle scenarioA JSUndefined) (stored 4 [])
    = run (with_userHandle scenarioA (JSString "dXNlci0x")) (stored 4 []).
Proof.
  apply (userHandle_is_not_used (helpers := helpers) scenarioA (stored 4 [])).
  - left. reflexivity.
  - right. eexists. reflexivity.
Defined.

Lemma unread_members_witness :
  run (with_response scenarioA
         (set_prop (response scenarioA) "authenticatorAttachment"
            (JSString "platform"))) (stored 4 [])
    = run scenarioA (stored 4 []).
Proof.
  apply (proj1 (unread_members_are_ignored (helpers := helpers) scenarioA
                  (stored 4 []) "authenticatorAttachment"
                  (JSString "platform"))).
  cbn. intuition discriminate.
Defined.
